(** * falcoctl: [driver config] -- committing the chosen driver type

    A shallow embedding of [cmd/driver/config/config.go]: the validator
    [checkFalcoRunsWithDrivers], the local patcher
    [replaceDriverTypeInFalcoConfig], the cluster patcher
    [replaceDriverTypeInK8SConfigMap], the dispatcher [commit] and the command
    body [RunDriverConfig].

    Go functions that return [error] become computations in a small monad
    over a [World] (file system, cluster, driver store, trace of the calls
    made); a computation ends by returning, by returning an error or by a
    run-time panic.  What the file calls and does not define (the other
    packages of the repository, the Kubernetes client, yaml, json, the
    operating system) is a parameter of the development, the class [Env]. *)

From Stdlib Require Import NArith Lia Sorted.
From stdpp Require Import base option list strings gmap.

(** ** Strings *)

(** The double quote and the line feed, as characters. *)
Definition dquote : string := String (Ascii.ascii_of_nat 34) EmptyString.
Definition newline : string := String (Ascii.ascii_of_nat 10) EmptyString.

(** [quoted s] is [s] between double quotes. *)
Definition quoted (s : string) : string := dquote +:+ s +:+ dquote.

(** [strings.Join]. *)
Fixpoint strings_Join (elems : list string) (sep : string) : string :=
  match elems with
  | [] => EmptyString
  | [e] => e
  | e :: rest => e +:+ sep +:+ strings_Join rest sep
  end.

(** [drop_string n s]: [s[n:]], the empty string when [n] is past the end. *)
Fixpoint drop_string (n : nat) (s : string) : string :=
  match n, s with
  | O, _ => s
  | S n', String _ s' => drop_string n' s'
  | S _, EmptyString => EmptyString
  end.

(** [split_first old s] cuts [s] at the leftmost occurrence of [old]: the text
    before it and the text after it; [None] when [old] does not occur. *)
Fixpoint split_first (old s : string) : option (string * string) :=
  if String.prefix old s then Some (EmptyString, drop_string (String.length old) s)
  else
    match s with
    | EmptyString => None
    | String c s' =>
        match split_first old s' with
        | Some (pre, post) => Some (String c pre, post)
        | None => None
        end
    end.

(** Replacement of the first [n] occurrences of [old] (leftmost first, not
    overlapping) by [new]. *)
Fixpoint replace_n (n : nat) (old new s : string) : string :=
  match n with
  | O => s
  | S n' =>
      match split_first old s with
      | Some (pre, post) => pre +:+ new +:+ replace_n n' old new post
      | None => s
      end
  end.

(** [occurs_at old s i]: [old] is the text of [s] starting at byte offset [i]. *)
Definition occurs_at (old s : string) (i : nat) : bool :=
  String.prefix old (drop_string i s).

(** ** Errors and outcomes *)

(** A Go [error], by its message. *)
Definition error : Type := string.

Definition errors_New (msg : string) : error := msg.

(** How a call ends: it returns a value, it returns an error, or the
    goroutine panics. *)
Inductive outcome (A : Type) : Type :=
| Ret (a : A)
| Err (e : error)
| Panic (msg : string).
Arguments Ret {A} a.
Arguments Err {A} e.
Arguments Panic {A} msg.

(** A library call that returns [(value, error)]. *)
Inductive result (A : Type) : Type :=
| Ok (a : A)
| Failed (e : error).
Arguments Ok {A} a.
Arguments Failed {A} e.

(** ** The monad of effectful Go code

    A computation reads and updates a world [W]; [Err] and [Panic] stop the
    rest of the function ([if err != nil { return err }]). *)
Definition M (W A : Type) : Type := W -> outcome A * W.

Definition ret {W A} (a : A) : M W A := fun w => (Ret a, w).
Definition fail {W A} (e : error) : M W A := fun w => (Err e, w).
Definition panic {W A} (msg : string) : M W A := fun w => (Panic msg, w).

Definition bind {W A B} (m : M W A) (k : A -> M W B) : M W B :=
  fun w =>
    match m w with
    | (Ret a, w') => k a w'
    | (Err e, w') => (Err e, w')
    | (Panic msg, w') => (Panic msg, w')
    end.

(** A pure library result, lifted: a [Failed e] is returned to the caller. *)
Definition lift {W A} (r : result A) : M W A :=
  match r with
  | Ok a => ret a
  | Failed e => fail e
  end.

Notation "x <- c1 ;; c2" := (bind c1 (fun x => c2))
  (at level 100, c1 at next level, right associativity).
Notation "c1 ;;; c2" := (bind c1 (fun _ => c2))
  (at level 100, right associativity).

(** ** Data of the command *)

(** [types.PatchType] of k8s.io/apimachinery. *)
Inductive PatchType : Type :=
| JSONPatchType
| MergePatchType
| StrategicMergePatchType
| ApplyPatchType.

(** A ConfigMap as the command reads it: its name, its namespace and its
    [Data]. *)
Record ConfigMap : Type := mkConfigMap {
  cm_Name : string;
  cm_Namespace : string;
  cm_Data : gmap string string;
}.

(** The local type [patchDriverTypeValue]. *)
Record patchDriverTypeValue : Type := mkPatch {
  Op : string;
  Path : string;
  Value : string;
}.

(** The local types [engineCfg] and [falcoCfg]. *)
Record engineCfg : Type := { Kind : string }.
Record falcoCfg : Type := { Engine : engineCfg }.

(** Modelled from the spec: [config.Driver], the record that
    [options.Driver.ToDriverConfig] builds and [config.StoreDriver] persists
    (internal/config and pkg/options are not among the sources): the chosen
    driver type plus its metadata, name, version, host-root path and source
    list. *)
Record config_Driver : Type := {
  cd_Type : string;
  cd_Name : string;
  cd_Version : string;
  cd_HostRoot : string;
  cd_Repos : list string;
}.

(** A file: permission bits and bytes. *)
Record File : Type := mkFile {
  f_mode : N;
  f_content : string;
}.

(** The file system, by cleaned absolute path. *)
Abbreviation FS := (gmap string File).

(** Logger levels used by the command. *)
Inductive Level : Type := LInfo | LWarn.

(** The calls the command makes on the outside world, in the order made.
    [EvPatch] carries the position [i] in the listing the call was made for. *)
Inductive Event : Type :=
| EvLog (lvl : Level) (msg : string) (args : list (string * string))
| EvStat (path : string)
| EvReadFile (path : string)
| EvWriteFile (path data : string) (perm : N)
| EvList (ns selector : string)
| EvPatch (i : nat) (ns name : string) (pt : PatchType) (data : string)
| EvStoreDriver (cfg : config_Driver) (file : string).

Definition is_patch (ev : Event) : bool :=
  match ev with EvPatch _ _ _ _ _ => true | _ => false end.

Definition is_store (ev : Event) : bool :=
  match ev with EvStoreDriver _ _ => true | _ => false end.

(** Calls that read or change the local configuration file or the cluster. *)
Definition touches_config (ev : Event) : bool :=
  match ev with
  | EvLog _ _ _ | EvStoreDriver _ _ => false
  | _ => true
  end.

Definition configMapEngineKindKey : string := "engine.kind".
Definition configKindKey : string := "kind: ".

(** [filepath.Clean(filepath.Join(string(os.PathSeparator), "etc", "falco",
    "falco.yaml"))], with the separator of Linux. *)
Definition falcoCfgFile : string := "/etc/falco/falco.yaml".

Definition labelSelector : string := "app.kubernetes.io/instance: falco".

(** The message of the error returned when the listing is taken to be empty. *)
Definition noConfigMapsMsg : string :=
  "no configmaps matching " +:+ quoted labelSelector +:+ " label were found".

(** ** Protobuf sizes (k8s.io/api/core/v1, generated.pb.go)

    The API types of Kubernetes carry the methods that gogo-protobuf
    generates; [Size] is one of them, the number of bytes of the encoded
    message.  [v1.ConfigMapList] has no other [Size] method. *)

(** [bits.Len64]. *)
Definition bits_Len64 (x : N) : N := N.size x.

(** [sovGenerated]: the length of [x] as a varint,
    [(bits.Len64(x|1) + 6) / 7]. *)
Definition sovGenerated (x : N) : N := (bits_Len64 (N.lor x 1) + 6) / 7.

(** ** The outside of the file

    Everything [config.go] calls and does not define: code of other
    packages of the repository and libraries. *)
Class Env : Type := {
  (** pkg/driver/type: the driver types, their canonical string and the
      parser of that string. *)
  DriverType : Type;
  DriverType_String : DriverType -> string;
  drivertype_Parse : string -> result DriverType;

  (** gopkg.in/yaml.v3: [yaml.Unmarshal] of the bytes of the file into a
      [falcoCfg]. *)
  yaml_Unmarshal : string -> result falcoCfg;

  (** encoding/json: the encoding of a Go string as a JSON string. *)
  json_string : string -> string;

  (** client-go: building a client, and the two calls made with it.  The
      cluster is a state the calls read and update. *)
  RestConfig : Type;
  Clientset : Type;
  Cluster : Type;
  ListMeta : Type;
  clientcmd_BuildConfigFromFlags : string -> string -> result RestConfig;
  rest_InClusterConfig : result RestConfig;
  kubernetes_NewForConfig : RestConfig -> result Clientset;
  List_call :
    Clientset -> Cluster -> string -> string -> result (ListMeta * list ConfigMap);
  Patch_call :
    Clientset -> Cluster -> string -> string -> PatchType -> string ->
    Cluster * option error;

  (** The protobuf sizes of the list metadata and of one ConfigMap. *)
  ListMeta_Size : ListMeta -> N;
  ConfigMap_Size : ConfigMap -> N;

  (** internal/config: [config.StoreDriver], on the state of the local
      structured store. *)
  Store : Type;
  StoreDriver_call : Store -> config_Driver -> string -> Store * option error;

  (** The operating system may refuse a call on a file; a refused write
      leaves the file system in a state of its choosing. *)
  Stat_fault : FS -> string -> option error;
  ReadFile_fault : FS -> string -> option error;
  WriteFile_fault : FS -> string -> string -> N -> option (error * FS);
}.

(** ** The command *)

Section DriverConfig.

Context `{E : Env}.

(** [v1.ConfigMapList]. *)
Record ConfigMapList : Type := mkList {
  cl_ListMeta : ListMeta;
  Items : list ConfigMap;
}.

(** [options.Driver]. *)
Record options_Driver : Type := {
  Type_ : DriverType;
  Name : string;
  Version : string;
  Repos : list string;
  HostRoot : string;
}.

(** [driverConfigOptions], with the fields of [options.Common] the command
    uses. *)
Record driverConfigOptions : Type := {
  ConfigFile : string;
  Driver : options_Driver;
  Update : bool;
  Namespace : string;
  KubeConfig : string;
}.

Record World : Type := mkWorld {
  fs : FS;
  cluster : Cluster;
  store : Store;
  trace : list Event;
}.

Definition emit (ev : Event) (w : World) : World :=
  mkWorld (fs w) (cluster w) (store w) (trace w ++ [ev]).

(** *** Library calls as computations *)

Definition Logger_Info (msg : string) (args : list (string * string)) : M World unit :=
  fun w => (Ret tt, emit (EvLog LInfo msg args) w).

Definition Logger_Warn (msg : string) (args : list (string * string)) : M World unit :=
  fun w => (Ret tt, emit (EvLog LWarn msg args) w).

Definition enoent (op path : string) : error :=
  op +:+ " " +:+ path +:+ ": no such file or directory".

(** [os.Stat], for the mode. *)
Definition os_Stat (path : string) : M World N :=
  fun w =>
    let w1 := emit (EvStat path) w in
    match Stat_fault (fs w) path with
    | Some e => (Err e, w1)
    | None =>
        match fs w !! path with
        | Some f => (Ret (f_mode f), w1)
        | None => (Err (enoent "stat" path), w1)
        end
    end.

(** [os.ReadFile]. *)
Definition os_ReadFile (path : string) : M World string :=
  fun w =>
    let w1 := emit (EvReadFile path) w in
    match ReadFile_fault (fs w) path with
    | Some e => (Err e, w1)
    | None =>
        match fs w !! path with
        | Some f => (Ret (f_content f), w1)
        | None => (Err (enoent "open" path), w1)
        end
    end.

(** [os.WriteFile]: an existing file keeps its mode and gets the new bytes;
    a new file is created with [perm]. *)
Definition os_WriteFile (path data : string) (perm : N) : M World unit :=
  fun w =>
    let w1 := emit (EvWriteFile path data perm) w in
    match WriteFile_fault (fs w) path data perm with
    | Some (e, fs') => (Err e, mkWorld fs' (cluster w1) (store w1) (trace w1))
    | None =>
        let m := match fs w !! path with Some f => f_mode f | None => perm end in
        (Ret tt, mkWorld (<[path := mkFile m data]> (fs w)) (cluster w1) (store w1) (trace w1))
    end.

(** [cl.CoreV1().ConfigMaps(ns).List(ctx, ListOptions{LabelSelector: sel})]. *)
Definition ConfigMaps_List (cl : Clientset) (ns sel : string) : M World ConfigMapList :=
  fun w =>
    let w1 := emit (EvList ns sel) w in
    match List_call cl (cluster w) ns sel with
    | Ok (lm, items) => (Ret (mkList lm items), w1)
    | Failed e => (Err e, w1)
    end.

(** [cl.CoreV1().ConfigMaps(ns).Patch(ctx, name, pt, data, PatchOptions{})],
    made for the item at position [i]; the ConfigMap it returns is dropped. *)
Definition ConfigMaps_Patch (cl : Clientset) (i : nat) (ns name : string)
    (pt : PatchType) (data : string) : M World unit :=
  fun w =>
    let w1 := emit (EvPatch i ns name pt data) w in
    let r := Patch_call cl (cluster w) ns name pt data in
    let w2 := mkWorld (fs w1) (fst r) (store w1) (trace w1) in
    match snd r with
    | Some e => (Err e, w2)
    | None => (Ret tt, w2)
    end.

(** [config.StoreDriver(cfg, file)]. *)
Definition config_StoreDriver (cfg : config_Driver) (file : string) : M World unit :=
  fun w =>
    let w1 := emit (EvStoreDriver cfg file) w in
    let r := StoreDriver_call (store w) cfg file in
    let w2 := mkWorld (fs w1) (cluster w1) (fst r) (trace w1) in
    match snd r with
    | Some e => (Err e, w2)
    | None => (Ret tt, w2)
    end.

(** [json.Marshal] of a [[]patchDriverTypeValue]: the fields in the order of
    the struct, under their json tags. *)
Definition json_patchDriverTypeValue (p : patchDriverTypeValue) : string :=
  "{" +:+ quoted "op" +:+ ":" +:+ json_string (Op p) +:+ ","
      +:+ quoted "path" +:+ ":" +:+ json_string (Path p) +:+ ","
      +:+ quoted "value" +:+ ":" +:+ json_string (Value p) +:+ "}".

Definition json_Marshal (payload : list patchDriverTypeValue) : string :=
  "[" +:+ strings_Join (map json_patchDriverTypeValue payload) "," +:+ "]".

(** [ConfigMapList.Size] of generated.pb.go, the method the command calls
    for its emptiness test and for the bound of its loop:
<<
    func (m *ConfigMapList) Size() (n int) {
        if m == nil { return 0 }
        var l int
        l = m.ListMeta.Size()
        n += 1 + l + sovGenerated(uint64(l))
        if len(m.Items) > 0 {
            for _, e := range m.Items {
                l = e.Size()
                n += 1 + l + sovGenerated(uint64(l))
            }
        }
        return n
    }
>>
    The receiver is never nil here: [List] returns a non-nil list when it
    returns no error.  Sizes are numbers of bytes of messages held in
    memory, so the additions on Go's [int] do not wrap. *)
Definition ConfigMapList_Size (m : ConfigMapList) : N :=
  let l := ListMeta_Size (cl_ListMeta m) in
  fold_left
    (fun n e => let l := ConfigMap_Size e in (n + (1 + l + sovGenerated l))%N)
    (Items m)
    (1 + l + sovGenerated l)%N.

(** Modelled from the spec: [utils.ReplaceTextInFile] (internal/utils is not
    among the sources): an exact literal substitution of the first [n]
    occurrences within the raw file content, every other byte unchanged,
    then the full content written back to the same path preserving file
    mode. *)
Definition ReplaceTextInFile (filePath searchFor replacementText : string) (n : nat)
    : M World unit :=
  mode <- os_Stat filePath ;;
  input <- os_ReadFile filePath ;;
  os_WriteFile filePath (replace_n n searchFor replacementText input) mode.

(** Modelled from the spec: [options.Driver.ToDriverConfig] (pkg/options is
    not among the sources): the chosen driver type plus its metadata. *)
Definition ToDriverConfig (d : options_Driver) : config_Driver :=
  {| cd_Type := DriverType_String (Type_ d);
     cd_Name := Name d;
     cd_Version := Version d;
     cd_HostRoot := HostRoot d;
     cd_Repos := Repos d |}.

(** *** config.go *)

(** [checkFalcoRunsWithDrivers]: [None] is the nil error. *)
Definition checkFalcoRunsWithDrivers (engineKind : string) : option error :=
  match drivertype_Parse engineKind with
  | Failed _ => Some ("engine.kind is not driver driven: " +:+ engineKind)
  | Ok _ => None
  end.

Definition replaceDriverTypeInFalcoConfig (o : driverConfigOptions)
    (driverType : DriverType) : M World unit :=
  yamlFile <- os_ReadFile falcoCfgFile ;;
  cfg <- lift (yaml_Unmarshal yamlFile) ;;
  match checkFalcoRunsWithDrivers (Kind (Engine cfg)) with
  | Some err =>
      Logger_Warn "Avoid updating Falco configuration"
        [("config", falcoCfgFile); ("reason", err)] ;;;
      ret tt
  | None =>
      ReplaceTextInFile falcoCfgFile
        (configKindKey +:+ Kind (Engine cfg))
        (configKindKey +:+ DriverType_String driverType) 1
  end.

(** [configMap.Data[configMapEngineKindKey]]: the empty string when the key
    is absent. *)
Definition currEngineKind (configMap : ConfigMap) : string :=
  default EmptyString (cm_Data configMap !! configMapEngineKindKey).

(** One turn of the [for] loop of [replaceDriverTypeInK8SConfigMap] on the
    item at position [i]; returning is [continue]. *)
Definition loop_body (cl : Clientset) (plBytes : string) (i : nat)
    (configMap : ConfigMap) : M World unit :=
  match checkFalcoRunsWithDrivers (currEngineKind configMap) with
  | Some err =>
      Logger_Warn "Avoid updating Falco configMap"
        [("configMap", cm_Name configMap); ("reason", err)]
  | None =>
      ConfigMaps_Patch cl i (cm_Namespace configMap) (cm_Name configMap)
        JSONPatchType plBytes
  end.

(** The [for] loop, entered with counter [i] and [remaining] turns to go
    before [i < configMapList.Size()] fails. *)
Fixpoint for_configMaps (cl : Clientset) (configMapList : ConfigMapList)
    (plBytes : string) (remaining i : nat) : M World unit :=
  match remaining with
  | O => ret tt
  | S remaining' =>
      match Items configMapList !! i with
      | None => panic "runtime error: index out of range"
      | Some configMap =>
          loop_body cl plBytes i configMap ;;;
          for_configMaps cl configMapList plBytes remaining' (S i)
      end
  end.

(** The payload, [json.Marshal] of the one-element slice. *)
Definition plBytes_of (driverType : DriverType) : string :=
  json_Marshal
    [ mkPatch "replace" ("/data/" +:+ configMapEngineKindKey)
        (DriverType_String driverType) ].

(** The client: from the kubeconfig when one is given, in-cluster otherwise.
    The library calls are taken by their result alone: the files they load
    (the kubeconfig, the service-account files of a pod) are not files of
    [World] and loading them leaves no event in the trace. *)
Definition new_client (o : driverConfigOptions) : result Clientset :=
  match (if decide (KubeConfig o = EmptyString)
         then rest_InClusterConfig
         else clientcmd_BuildConfigFromFlags EmptyString (KubeConfig o)) with
  | Failed e => Failed e
  | Ok cfg => kubernetes_NewForConfig cfg
  end.

Definition replaceDriverTypeInK8SConfigMap (o : driverConfigOptions)
    (driverType : DriverType) : M World unit :=
  cl <- lift (new_client o) ;;
  configMapList <- ConfigMaps_List cl (Namespace o) labelSelector ;;
  if (ConfigMapList_Size configMapList =? 0)%N then
    fail (errors_New noConfigMapsMsg)
  else
    for_configMaps cl configMapList (plBytes_of driverType)
      (N.to_nat (ConfigMapList_Size configMapList)) 0.

(** [commit]. *)
Definition commit (o : driverConfigOptions) (driverType : DriverType) : M World unit :=
  if decide (Namespace o = EmptyString) then
    replaceDriverTypeInFalcoConfig o driverType
  else
    replaceDriverTypeInK8SConfigMap o driverType.

(** [RunDriverConfig]. *)
Definition RunDriverConfig (o : driverConfigOptions) : M World unit :=
  Logger_Info "Running falcoctl driver config"
    [("name", Name (Driver o));
     ("version", Version (Driver o));
     ("type", DriverType_String (Type_ (Driver o)));
     ("host-root", HostRoot (Driver o));
     ("repos", strings_Join (Repos (Driver o)) ",")] ;;;
  (if Update o then commit o (Type_ (Driver o)) else ret tt) ;;;
  config_StoreDriver (ToDriverConfig (Driver o)) (ConfigFile o).

End DriverConfig.

(** ** The command line *)

Section Flags.

Context `{E : Env}.

(** The flags of the command as given on the command line; [None] is a flag
    that was not given. *)
Record flag_values : Type := {
  flag_update_falco : option bool;
  flag_namespace : option string;
  flag_kubeconfig : option string;
}.

(** [NewDriverConfigCmd]: the [RunE] of the command it builds, once the
    flags are parsed.  [BoolVar] and [StringVar] bind [Update], [Namespace]
    and [KubeConfig] to the flags [update-falco] (default true), [namespace]
    and [kubeconfig] (default empty). *)
Definition NewDriverConfigCmd (configFile : string) (driver : options_Driver)
    (given : flag_values) : M World unit :=
  RunDriverConfig
    {| ConfigFile := configFile;
       Driver := driver;
       Update := default true (flag_update_falco given);
       Namespace := default EmptyString (flag_namespace given);
       KubeConfig := default EmptyString (flag_kubeconfig given) |}.

End Flags.

(** ** Observations on outcomes and traces *)

Definition returned_nil (r : outcome unit) : bool :=
  match r with Ret _ => true | _ => false end.

Definition panicked {A} (r : outcome A) : bool :=
  match r with Panic _ => true | _ => false end.

(** The position in the listing a patch call was made for. *)
Definition patch_index (ev : Event) : option nat :=
  match ev with EvPatch i _ _ _ _ => Some i | _ => None end.

(** A byte that [encoding/json] copies as it is into a JSON string: printable
    ASCII other than the double quote, the backslash and the HTML
    characters. *)
Definition json_plain_char (c : Ascii.ascii) : bool :=
  let n := Ascii.N_of_ascii c in
  ((32 <=? n) && (n <=? 126) && negb (n =? 34) && negb (n =? 92)
   && negb (n =? 60) && negb (n =? 62) && negb (n =? 38))%N.

Fixpoint json_plain (s : string) : bool :=
  match s with
  | EmptyString => true
  | String c s' => json_plain_char c && json_plain s'
  end.

(** The JSON patch the spec gives, for the value [v]. *)
Definition patch_document (v : string) : string :=
  "[{" +:+ quoted "op" +:+ ":" +:+ quoted "replace" +:+ ","
       +:+ quoted "path" +:+ ":" +:+ quoted "/data/engine.kind" +:+ ","
       +:+ quoted "value" +:+ ":" +:+ quoted v +:+ "}]".

Section Observations.

Context `{E : Env}.

Implicit Types (o : driverConfigOptions) (w : World) (cl : Clientset).
Implicit Types (configMap : ConfigMap) (d : DriverType).

(** The call the turn on [configMap] at position [i] makes. *)
Definition body_event (plBytes : string) (i : nat) configMap : Event :=
  match checkFalcoRunsWithDrivers (currEngineKind configMap) with
  | Some err =>
      EvLog LWarn "Avoid updating Falco configMap"
        [("configMap", cm_Name configMap); ("reason", err)]
  | None =>
      EvPatch i (cm_Namespace configMap) (cm_Name configMap) JSONPatchType plBytes
  end.

(** What the loop does on the items from position [i] on when no call
    fails: the call of the turn on each, in order. *)
Fixpoint events_of (plBytes : string) (i : nat) (items : list ConfigMap)
    : list Event :=
  match items with
  | [] => []
  | configMap :: rest =>
      body_event plBytes i configMap :: events_of plBytes (S i) rest
  end.

(** The warning logged for a skipped ConfigMap. *)
Definition skip_event configMap : Event :=
  EvLog LWarn "Avoid updating Falco configMap"
    [("configMap", cm_Name configMap);
     ("reason", "engine.kind is not driver driven: " +:+ currEngineKind configMap)].

(** The patch submitted for the ConfigMap at position [i]. *)
Definition patch_event d (i : nat) configMap : Event :=
  EvPatch i (cm_Namespace configMap) (cm_Name configMap) JSONPatchType (plBytes_of d).

(** The line logged at the start of the command. *)
Definition info_event o : Event :=
  EvLog LInfo "Running falcoctl driver config"
    [("name", Name (Driver o));
     ("version", Version (Driver o));
     ("type", DriverType_String (Type_ (Driver o)));
     ("host-root", HostRoot (Driver o));
     ("repos", strings_Join (Repos (Driver o)) ",")].

(** The call that persists the driver selection. *)
Definition store_event o : Event :=
  EvStoreDriver (ToDriverConfig (Driver o)) (ConfigFile o).

(** From [w] to [w'] the store is not written: its state is the same and
    the calls made in between include no [StoreDriver]. *)
Definition store_untouched w w' : Prop :=
  store w' = store w /\
  exists evs,
    trace w' = trace w ++ evs /\
    forallb (fun ev => negb (is_store ev)) evs = true.

(** A computation that never writes the store, however it ends. *)
Definition keeps_store {A} (m : M World A) : Prop :=
  forall w, store_untouched w (snd (m w)).

(** The calls on the cluster, and the calls on the file system. *)
Definition is_cluster_call (ev : Event) : bool :=
  match ev with EvList _ _ | EvPatch _ _ _ _ _ => true | _ => false end.

Definition is_file_call (ev : Event) : bool :=
  match ev with EvStat _ | EvReadFile _ | EvWriteFile _ _ _ => true | _ => false end.

(** From [w] to [w'] the cluster is left alone: its state is the same and
    no call was made on it. *)
Definition cluster_untouched w w' : Prop :=
  cluster w' = cluster w /\
  exists evs,
    trace w' = trace w ++ evs /\
    forallb (fun ev => negb (is_cluster_call ev)) evs = true.

(** From [w] to [w'] the file system is left alone. *)
Definition files_untouched w w' : Prop :=
  fs w' = fs w /\
  exists evs,
    trace w' = trace w ++ evs /\
    forallb (fun ev => negb (is_file_call ev)) evs = true.

(** A computation that never calls the cluster, however it ends. *)
Definition keeps_cluster {A} (m : M World A) : Prop :=
  forall w, cluster_untouched w (snd (m w)).

(** The positions of the patch calls among [evs], in the order made. *)
Definition patch_positions (evs : list Event) : list nat :=
  omap patch_index evs.

End Observations.

(** ** A test double of the outside

    A driver-type package with the three types of the spec, a reader for
    configuration files of the shape [engine:] / [  kind: <value>], a fake
    cluster that records the patches it accepts, a store that records what
    is stored, and an operating system that refuses nothing. *)
Module Sample.

(** Modelled from the spec: the closed enumeration of driver types
    (pkg/driver/type is not among the sources), kernel module, eBPF and
    modern eBPF. *)
Inductive driver_type : Type := Kmod | Ebpf | ModernEbpf.

(** Modelled from the spec: the canonical string form, the value written
    into configuration and the validation token. *)
Definition to_string (d : driver_type) : string :=
  match d with
  | Kmod => "kmod"
  | Ebpf => "ebpf"
  | ModernEbpf => "modern-ebpf"
  end.

(** Modelled from the spec: a string parses when it is the canonical string
    of a driver type. *)
Definition parse (s : string) : result driver_type :=
  if decide (s = "kmod") then Ok Kmod
  else if decide (s = "ebpf") then Ok Ebpf
  else if decide (s = "modern-ebpf") then Ok ModernEbpf
  else Failed ("wrong driver type specified: " +:+ s).

(** The text up to the end of the line. *)
Fixpoint first_line (s : string) : string :=
  match s with
  | EmptyString => EmptyString
  | String c s' =>
      if Ascii.eqb c (Ascii.ascii_of_nat 10) then EmptyString
      else String c (first_line s')
  end.

Definition engine_header : string := "engine:" +:+ newline +:+ "  kind: ".

Definition read_yaml (s : string) : result falcoCfg :=
  if String.prefix engine_header s then
    Ok {| Engine := {| Kind := first_line (drop_string (String.length engine_header) s) |} |}
  else Failed "yaml: unmarshal errors".

(** The fake cluster: the ConfigMaps it lists and the patches it has
    accepted, by name.  It refuses to patch a ConfigMap whose name starts
    with [readonly-]. *)
Record fake_cluster : Type := {
  listed : list ConfigMap;
  accepted : list (string * string);
}.

Definition fake_list (c : fake_cluster) : result (unit * list ConfigMap) :=
  Ok (tt, listed c).

Definition fake_patch (c : fake_cluster) (name data : string)
    : fake_cluster * option error :=
  if String.prefix "readonly-" name then (c, Some ("patch rejected: " +:+ name))
  else ({| listed := listed c; accepted := accepted c ++ [(name, data)] |}, None).

#[export] Instance env : Env := {|
  DriverType := driver_type;
  DriverType_String := to_string;
  drivertype_Parse := parse;
  yaml_Unmarshal := read_yaml;
  json_string := quoted;
  RestConfig := unit;
  Clientset := unit;
  Cluster := fake_cluster;
  ListMeta := unit;
  clientcmd_BuildConfigFromFlags := fun _ _ => Ok tt;
  rest_InClusterConfig := Ok tt;
  kubernetes_NewForConfig := fun _ => Ok tt;
  List_call := fun _ c _ _ => fake_list c;
  Patch_call := fun _ c _ name _ data => fake_patch c name data;
  ListMeta_Size := fun _ => 6%N;
  ConfigMap_Size := fun _ => 40%N;
  Store := list (config_Driver * string);
  StoreDriver_call := fun s cfg file => (s ++ [(cfg, file)], None);
  Stat_fault := fun _ _ => None;
  ReadFile_fault := fun _ _ => None;
  WriteFile_fault := fun _ _ _ _ => None;
|}.

(** The file of the spec's scenario, with engine kind [kind]. *)
Definition falco_yaml (kind : string) : string :=
  engine_header +:+ kind +:+ newline.

Definition disk (kind : string) : FS :=
  {[ falcoCfgFile := mkFile 420 (falco_yaml kind) ]}.

Definition configmap (name kind : string) : ConfigMap :=
  mkConfigMap name "falco" {[ configMapEngineKindKey := kind ]}.

(** A ConfigMap with no [engine.kind] key. *)
Definition bare_configmap (name : string) : ConfigMap :=
  mkConfigMap name "falco" ∅.

Definition world (files : FS) (maps : list ConfigMap) : World :=
  mkWorld files {| listed := maps; accepted := [] |} [] [].

Definition options (d : driver_type) (update : bool) (ns : string)
    : driverConfigOptions :=
  {| ConfigFile := "/etc/falcoctl/falcoctl.yaml";
     Driver := {| Type_ := d; Name := "falco"; Version := "7.0.0";
                  Repos := ["https://download.falco.org/driver"];
                  HostRoot := "/host" |};
     Update := update;
     Namespace := ns;
     KubeConfig := EmptyString |}.

(** The command for [ebpf] against the namespace [falco], and against the
    local file. *)
Definition k8s_options : driverConfigOptions := options Ebpf true "falco".
Definition local_options : driverConfigOptions := options Ebpf true EmptyString.

(** Three ConfigMaps, the second one of a deployment without a driver. *)
Definition mixed_maps : list ConfigMap :=
  [configmap "falco-a" "kmod"; configmap "falco-b" "gvisor"; configmap "falco-c" "ebpf"].

(** Three ConfigMaps with a driver, the second one refused by the cluster. *)
Definition guarded_maps : list ConfigMap :=
  [configmap "falco-a" "kmod"; configmap "readonly-b" "kmod"; configmap "falco-c" "ebpf"].

(** Two ConfigMaps of deployments without a driver. *)
Definition plugin_maps : list ConfigMap :=
  [configmap "falco-a" "gvisor"; configmap "falco-b" "nodriver"].

(** The same outside with another answer to the in-cluster configuration
    and to the listing call. *)
Definition variant (in_cluster : result unit)
    (lister : fake_cluster -> result (unit * list ConfigMap)) : Env := {|
  DriverType := driver_type;
  DriverType_String := to_string;
  drivertype_Parse := parse;
  yaml_Unmarshal := read_yaml;
  json_string := quoted;
  RestConfig := unit;
  Clientset := unit;
  Cluster := fake_cluster;
  ListMeta := unit;
  clientcmd_BuildConfigFromFlags := fun _ _ => Ok tt;
  rest_InClusterConfig := in_cluster;
  kubernetes_NewForConfig := fun _ => Ok tt;
  List_call := fun _ c _ _ => lister c;
  Patch_call := fun _ c _ name _ data => fake_patch c name data;
  ListMeta_Size := fun _ => 6%N;
  ConfigMap_Size := fun _ => 40%N;
  Store := list (config_Driver * string);
  StoreDriver_call := fun s cfg file => (s ++ [(cfg, file)], None);
  Stat_fault := fun _ _ => None;
  ReadFile_fault := fun _ _ => None;
  WriteFile_fault := fun _ _ _ _ => None;
|}.



(** A cluster that refuses the listing. *)
Definition bad_selector : error :=
  "unable to parse requirement: invalid label selector".

Definition unlistable : Env := variant (Ok tt) (fun _ => Failed bad_selector).

(** The command for [ebpf] against the namespace [falco], and a world with
    [maps] in the cluster, for such an outside. *)
Definition variant_options (in_cluster : result unit)
    (lister : fake_cluster -> result (unit * list ConfigMap))
    : @driverConfigOptions (variant in_cluster lister) :=
  @Build_driverConfigOptions (variant in_cluster lister)
    "/etc/falcoctl/falcoctl.yaml"
    (@Build_options_Driver (variant in_cluster lister)
       Ebpf "falco" "7.0.0" ["https://download.falco.org/driver"] "/host")
    true "falco" EmptyString.

Definition variant_world (in_cluster : result unit)
    (lister : fake_cluster -> result (unit * list ConfigMap))
    (maps : list ConfigMap) : @World (variant in_cluster lister) :=
  @mkWorld (variant in_cluster lister) ∅ {| listed := maps; accepted := [] |} [] [].

(** The driver of [options]. *)
Definition ebpf_driver : options_Driver :=
  {| Type_ := Ebpf; Name := "falco"; Version := "7.0.0";
     Repos := ["https://download.falco.org/driver"];
     HostRoot := "/host" |}.

(** A command line with no flag. *)
Definition no_flags : flag_values :=
  {| flag_update_falco := None; flag_namespace := None; flag_kubeconfig := None |}.

(** A configuration file that is not of the shape the reader knows. *)
Definition broken_disk : FS :=
  {[ falcoCfgFile := mkFile 420 "engine: [" ]}.

End Sample.

(** ** Strings: the leftmost occurrence *)

Lemma append_String c s t : String c s +:+ t = String c (s +:+ t).
Proof. reflexivity. Qed.

Lemma append_Empty t : EmptyString +:+ t = t.
Proof. reflexivity. Qed.

Lemma append_assoc s1 s2 s3 : (s1 +:+ s2) +:+ s3 = s1 +:+ (s2 +:+ s3).
Proof.
  induction s1 as [|c s1 IH]; [reflexivity|].
  rewrite !append_String, IH. reflexivity.
Qed.


Lemma prefix_split old : forall s,
  String.prefix old s = true -> s = old +:+ drop_string (String.length old) s.
Proof.
  induction old as [|a old IH]; intros s H.
  - reflexivity.
  - destruct s as [|b s]; simpl in H; [discriminate|].
    destruct (Ascii.ascii_dec a b) as [->|]; [|discriminate].
    rewrite append_String. simpl. f_equal. apply IH, H.
Qed.

Lemma prefix_append old post : String.prefix old (old +:+ post) = true.
Proof.
  induction old as [|a old IH]; [destruct post; reflexivity|].
  rewrite append_String. simpl.
  destruct (Ascii.ascii_dec a a); [exact IH|congruence].
Qed.

Lemma drop_length_append old post :
  drop_string (String.length old) (old +:+ post) = post.
Proof. induction old as [|a old IH]; [reflexivity|]. exact IH. Qed.

(** When [split_first] finds [old], the text is [pre ++ old ++ post] and
    [old] does not start at any earlier offset. *)
Lemma split_first_Some old : forall s pre post,
  split_first old s = Some (pre, post) ->
  s = pre +:+ old +:+ post /\
  forall i, i < String.length pre -> occurs_at old s i = false.
Proof.
  unfold occurs_at.
  induction s as [|c s IH]; intros pre post H.
  - cbn [split_first] in H.
    destruct (String.prefix old EmptyString) eqn:Hp; [|discriminate].
    injection H as <- <-. rewrite append_Empty.
    split; [apply prefix_split; exact Hp|]. simpl. lia.
  - cbn [split_first] in H.
    destruct (String.prefix old (String c s)) eqn:Hp.
    + injection H as <- <-. rewrite append_Empty.
      split; [apply prefix_split; exact Hp|]. simpl. lia.
    + destruct (split_first old s) as [[pre' post']|] eqn:Hs; [|discriminate].
      injection H as <- <-. destruct (IH _ _ eq_refl) as [Heq Hno].
      split; [rewrite append_String; f_equal; exact Heq|].
      intros [|i] Hi; [exact Hp|]. simpl. apply Hno. simpl in Hi. lia.
Qed.


(** The cut at the leftmost occurrence is the one [split_first] makes. *)
Lemma split_first_leftmost old : forall pre post,
  (forall i, i < String.length pre ->
     occurs_at old (pre +:+ old +:+ post) i = false) ->
  split_first old (pre +:+ old +:+ post) = Some (pre, post).
Proof.
  unfold occurs_at.
  induction pre as [|c pre IH]; intros post Hno.
  - rewrite append_Empty.
    assert (Hp : String.prefix old (old +:+ post) = true) by apply prefix_append.
    destruct (old +:+ post) as [|c s] eqn:Heq; cbn [split_first]; rewrite Hp;
      rewrite <- Heq, drop_length_append; reflexivity.
  - rewrite append_String. cbn [split_first].
    pose proof (Hno 0 ltac:(simpl; lia)) as H0. cbn [drop_string] in H0.
    rewrite append_String in H0. rewrite H0.
    rewrite IH; [reflexivity|].
    intros i Hi. apply (Hno (S i)). simpl. lia.
Qed.

Lemma replace_first_found old new s pre post :
  split_first old s = Some (pre, post) ->
  replace_n 1 old new s = pre +:+ new +:+ post.
Proof. intros H. simpl. rewrite H. reflexivity. Qed.

Lemma replace_first_absent old new s :
  split_first old s = None -> replace_n 1 old new s = s.
Proof. intros H. simpl. rewrite H. reflexivity. Qed.

(** ** Properties of the command *)

Section Properties.

Context `{E : Env}.

Implicit Types (o : driverConfigOptions) (w : World) (cl : Clientset).
Implicit Types (configMap : ConfigMap) (d : DriverType).

(** *** The monad *)

Lemma bind_Ret {A B} (m : M World A) (k : A -> M World B) w a w' :
  m w = (Ret a, w') -> bind m k w = k a w'.
Proof. intros H. unfold bind. rewrite H. reflexivity. Qed.

Lemma bind_Err {A B} (m : M World A) (k : A -> M World B) w e w' :
  m w = (Err e, w') -> bind m k w = (Err e, w').
Proof. intros H. unfold bind. rewrite H. reflexivity. Qed.

Lemma bind_Panic {A B} (m : M World A) (k : A -> M World B) w msg w' :
  m w = (Panic msg, w') -> bind m k w = (Panic msg, w').
Proof. intros H. unfold bind. rewrite H. reflexivity. Qed.

Lemma bind_Ret_inv {A B} (m : M World A) (k : A -> M World B) w b w' :
  bind m k w = (Ret b, w') ->
  exists a w1, m w = (Ret a, w1) /\ k a w1 = (Ret b, w').
Proof.
  unfold bind. destruct (m w) as [[a|e|msg] w1]; intros H;
    [eauto|discriminate H|discriminate H].
Qed.

Lemma trace_emit ev w : trace (emit ev w) = trace w ++ [ev].
Proof. reflexivity. Qed.

(** *** The operating system *)

Lemma os_ReadFile_Ret path w data w' :
  os_ReadFile path w = (Ret data, w') ->
  ReadFile_fault (fs w) path = None /\
  (exists f, fs w !! path = Some f /\ data = f_content f) /\
  w' = emit (EvReadFile path) w.
Proof.
  unfold os_ReadFile. destruct (ReadFile_fault (fs w) path); [intros H; discriminate H|].
  destruct (fs w !! path) as [f|]; intros H; [|discriminate H].
  injection H as <- <-. eauto.
Qed.

Lemma os_Stat_Ret path w mode w' :
  os_Stat path w = (Ret mode, w') ->
  (exists f, fs w !! path = Some f /\ mode = f_mode f) /\
  w' = emit (EvStat path) w.
Proof.
  unfold os_Stat. destruct (Stat_fault (fs w) path); [intros H; discriminate H|].
  destruct (fs w !! path) as [f|]; intros H; [|discriminate H].
  injection H as <- <-. eauto.
Qed.

Lemma os_WriteFile_Ret path data perm w w' f :
  os_WriteFile path data perm w = (Ret tt, w') ->
  fs w !! path = Some f ->
  w' = mkWorld (<[path := mkFile (f_mode f) data]> (fs w)) (cluster w) (store w)
         (trace w ++ [EvWriteFile path data perm]).
Proof.
  unfold os_WriteFile. intros H Hf.
  destruct (WriteFile_fault (fs w) path data perm) as [[e fs']|]; [discriminate H|].
  rewrite Hf in H. injection H as <-. reflexivity.
Qed.

(** *** The validator *)

Lemma check_accepts engineKind d :
  drivertype_Parse engineKind = Ok d -> checkFalcoRunsWithDrivers engineKind = None.
Proof. intros H. unfold checkFalcoRunsWithDrivers. rewrite H. reflexivity. Qed.

Lemma check_rejects engineKind e :
  drivertype_Parse engineKind = Failed e ->
  checkFalcoRunsWithDrivers engineKind =
    Some ("engine.kind is not driver driven: " +:+ engineKind).
Proof. intros H. unfold checkFalcoRunsWithDrivers. rewrite H. reflexivity. Qed.

(** C6.  The validator is a function of the engine-kind string alone (it
    takes no world and returns none): it returns the nil error exactly when
    the string parses to a driver type, and the error it returns otherwise is
    the fixed message followed by the string it was given. *)
Theorem checkFalcoRunsWithDrivers_spec (engineKind : string) :
  (checkFalcoRunsWithDrivers engineKind = None <->
     exists d, drivertype_Parse engineKind = Ok d) /\
  (forall err, checkFalcoRunsWithDrivers engineKind = Some err ->
     err = "engine.kind is not driver driven: " +:+ engineKind).
Proof.
  unfold checkFalcoRunsWithDrivers.
  destruct (drivertype_Parse engineKind) as [d|e] eqn:Hp; split.
  - split; [eauto|reflexivity].
  - intros err H. discriminate H.
  - split; [intros H; discriminate H|intros [d H]; discriminate H].
  - intros err H. injection H as <-. reflexivity.
Qed.

(** *** The local patcher *)

(** X6.  A file whose engine kind is not a driver type: the local patcher
    returns the nil error after one read and one warning that carries the
    path and the reason; it makes no other call and the file system is as
    it was. *)
Lemma local_skip o d w f cfg err :
  ReadFile_fault (fs w) falcoCfgFile = None ->
  fs w !! falcoCfgFile = Some f ->
  yaml_Unmarshal (f_content f) = Ok cfg ->
  checkFalcoRunsWithDrivers (Kind (Engine cfg)) = Some err ->
  replaceDriverTypeInFalcoConfig o d w =
    (Ret tt,
     emit (EvLog LWarn "Avoid updating Falco configuration"
             [("config", falcoCfgFile); ("reason", err)])
       (emit (EvReadFile falcoCfgFile) w)).
Proof.
  intros Hf Hfile Hy Hc.
  unfold replaceDriverTypeInFalcoConfig, bind, os_ReadFile.
  rewrite Hf, Hfile. cbn [emit fs]. unfold lift. rewrite Hy. unfold ret.
  rewrite Hc. reflexivity.
Qed.

(** A successful run on a file whose engine kind is a driver type writes
    the file once, with the first occurrence replaced and its mode kept. *)
Lemma local_patch_run o d w w' f cfg :
  replaceDriverTypeInFalcoConfig o d w = (Ret tt, w') ->
  fs w !! falcoCfgFile = Some f ->
  yaml_Unmarshal (f_content f) = Ok cfg ->
  checkFalcoRunsWithDrivers (Kind (Engine cfg)) = None ->
  let content' :=
    replace_n 1 (configKindKey +:+ Kind (Engine cfg))
      (configKindKey +:+ DriverType_String d) (f_content f) in
  fs w' = <[falcoCfgFile := mkFile (f_mode f) content']> (fs w) /\
  cluster w' = cluster w /\ store w' = store w /\
  trace w' = trace w ++
    [EvReadFile falcoCfgFile; EvStat falcoCfgFile; EvReadFile falcoCfgFile;
     EvWriteFile falcoCfgFile content' (f_mode f)].
Proof.
  intros Hrun Hfile Hy Hc content'.
  unfold replaceDriverTypeInFalcoConfig in Hrun.
  apply bind_Ret_inv in Hrun as (yamlFile & w1 & Hread & Hrun).
  apply os_ReadFile_Ret in Hread as (Hrf & (f1 & Hf1 & ->) & ->).
  assert (f1 = f) as -> by congruence.
  apply bind_Ret_inv in Hrun as (cfg1 & w2 & Hlift & Hrun).
  rewrite Hy in Hlift. injection Hlift as <- <-.
  rewrite Hc in Hrun. unfold ReplaceTextInFile in Hrun.
  apply bind_Ret_inv in Hrun as (mode & w3 & Hstat & Hrun).
  apply os_Stat_Ret in Hstat as ((f2 & Hf2 & ->) & ->).
  cbn [emit fs] in Hf2. assert (f2 = f) as -> by congruence.
  apply bind_Ret_inv in Hrun as (input & w4 & Hread & Hrun).
  apply os_ReadFile_Ret in Hread as (_ & (f3 & Hf3 & ->) & ->).
  cbn [emit fs] in Hf3. assert (f3 = f) as -> by congruence.
  apply (os_WriteFile_Ret _ _ _ _ _ f) in Hrun; [|exact Hfile].
  subst w'. cbn [emit fs cluster store trace].
  repeat split; try reflexivity.
  rewrite <- !app_assoc. reflexivity.
Qed.


(** *** The protobuf size of a listing *)

Lemma fold_Size_ge (items : list ConfigMap) : forall acc : N,
  (acc + N.of_nat (length items) <=
   fold_left
     (fun n e => let l := ConfigMap_Size e in n + (1 + l + sovGenerated l))
     items acc)%N.
Proof.
  induction items as [|e items IH]; intros acc; cbn [fold_left length].
  - lia.
  - specialize (IH (acc + (1 + ConfigMap_Size e + sovGenerated (ConfigMap_Size e)))%N).
    cbv zeta in *. lia.
Qed.

(** The size in bytes exceeds the number of items: every item, and the
    metadata, takes at least one byte. *)
Lemma Size_gt_length (m : ConfigMapList) :
  length (Items m) < N.to_nat (ConfigMapList_Size m).
Proof.
  unfold ConfigMapList_Size.
  pose proof (fold_Size_ge (Items m)
    (1 + ListMeta_Size (cl_ListMeta m) + sovGenerated (ListMeta_Size (cl_ListMeta m)))%N)
    as H.
  cbv zeta in *. lia.
Qed.

Lemma Size_nonzero (m : ConfigMapList) : (ConfigMapList_Size m =? 0)%N = false.
Proof. apply N.eqb_neq. pose proof (Size_gt_length m). lia. Qed.

(** *** One turn of the loop *)

Lemma events_of_cons plBytes i configMap rest :
  events_of plBytes i (configMap :: rest) =
    body_event plBytes i configMap :: events_of plBytes (S i) rest.
Proof. reflexivity. Qed.

Lemma loop_body_skip cl plBytes i configMap err w :
  checkFalcoRunsWithDrivers (currEngineKind configMap) = Some err ->
  loop_body cl plBytes i configMap w =
    (Ret tt,
     emit (EvLog LWarn "Avoid updating Falco configMap"
             [("configMap", cm_Name configMap); ("reason", err)]) w).
Proof. intros H. unfold loop_body. rewrite H. reflexivity. Qed.

Lemma loop_body_patch cl plBytes i configMap w :
  checkFalcoRunsWithDrivers (currEngineKind configMap) = None ->
  loop_body cl plBytes i configMap w =
    let r := Patch_call cl (cluster w) (cm_Namespace configMap) (cm_Name configMap)
               JSONPatchType plBytes in
    (match snd r with Some e => Err e | None => Ret tt end,
     mkWorld (fs w) (fst r) (store w)
       (trace w ++ [EvPatch i (cm_Namespace configMap) (cm_Name configMap)
                      JSONPatchType plBytes])).
Proof.
  intros H. unfold loop_body. rewrite H. unfold ConfigMaps_Patch. cbv zeta.
  cbn [emit fs store trace]. destruct (snd _); reflexivity.
Qed.

(** A turn makes exactly one call, never panics, and leaves the files and
    the store alone; the cluster can only change through a patch. *)
Lemma loop_body_effect cl plBytes i configMap w :
  let r := loop_body cl plBytes i configMap w in
  panicked (fst r) = false /\
  fs (snd r) = fs w /\ store (snd r) = store w /\
  trace (snd r) = trace w ++ [body_event plBytes i configMap] /\
  (is_patch (body_event plBytes i configMap) = false -> cluster (snd r) = cluster w).
Proof.
  unfold body_event.
  destruct (checkFalcoRunsWithDrivers (currEngineKind configMap)) as [err|] eqn:Hc.
  - rewrite (loop_body_skip _ _ _ _ _ _ Hc). cbn. auto.
  - rewrite (loop_body_patch _ _ _ _ _ Hc). cbv zeta. cbn [fst snd fs store trace cluster].
    repeat split; try reflexivity; [destruct (snd _); reflexivity|].
    intros H. discriminate H.
Qed.

(** *** The loop *)

Lemma for_past_end cl (m : ConfigMapList) plBytes remaining i w :
  Items m !! i = None ->
  for_configMaps cl m plBytes (S remaining) i w =
    (Panic "runtime error: index out of range", w).
Proof. intros H. cbn [for_configMaps]. rewrite H. reflexivity. Qed.

Lemma for_step cl (m : ConfigMapList) plBytes remaining i w configMap :
  Items m !! i = Some configMap ->
  for_configMaps cl m plBytes (S remaining) i w =
    bind (loop_body cl plBytes i configMap)
      (fun _ => for_configMaps cl m plBytes remaining (S i)) w.
Proof. intros H. cbn [for_configMaps]. rewrite H. reflexivity. Qed.

(** The calls of the loop are those of the turns it ran, in order: the
    events of the first [n] items from position [i] on, for some [n] no
    larger than the number of iterations asked for. *)
Lemma for_trace cl (m : ConfigMapList) plBytes : forall remaining i w,
  let r := for_configMaps cl m plBytes remaining i w in
  exists n,
    n <= remaining /\
    trace (snd r) = trace w ++ events_of plBytes i (take n (drop i (Items m))) /\
    fs (snd r) = fs w /\ store (snd r) = store w /\
    (forallb (fun ev => negb (is_patch ev))
       (events_of plBytes i (take n (drop i (Items m)))) = true ->
     cluster (snd r) = cluster w).
Proof.
  induction remaining as [|remaining IH]; intros i w; cbv zeta.
  - exists 0. cbn. rewrite app_nil_r. auto.
  - destruct (Items m !! i) as [configMap|] eqn:Hi.
    + rewrite (for_step _ _ _ _ _ _ _ Hi).
      destruct (loop_body_effect cl plBytes i configMap w)
        as (Hnp & Hfs & Hst & Htr & Hcl).
      rewrite (drop_S _ _ _ Hi).
      unfold bind.
      destruct (loop_body cl plBytes i configMap w) as [[[]|e|msg] w1] eqn:Hb;
        cbn [fst snd] in *.
      * destruct (IH (S i) w1) as (n & Hn & Htr' & Hfs' & Hst' & Hcl').
        exists (S n). cbn [take]. rewrite events_of_cons.
        split; [lia|]. split; [rewrite Htr', Htr, <- app_assoc; reflexivity|].
        split; [congruence|]. split; [congruence|].
        cbn [forallb]. intros [H1 H2]%andb_true_iff.
        rewrite Hcl' by exact H2. apply Hcl. apply negb_true_iff, H1.
      * exists 1. cbn [take]. rewrite events_of_cons. cbn [events_of].
        split; [lia|]. split; [exact Htr|]. split; [exact Hfs|]. split; [exact Hst|].
        cbn [forallb]. intros [H1 _]%andb_true_iff.
        apply Hcl. apply negb_true_iff, H1.
      * discriminate Hnp.
    + rewrite (for_past_end _ _ _ _ _ _ Hi). exists 0. cbn.
      rewrite app_nil_r. split; [lia|]. auto.
Qed.

(** The events of a run of turns: a patch event carries the position of an
    item the validator accepts, its namespace and name, the JSON patch type
    and the payload. *)
Lemma events_of_patch plBytes : forall (items : list ConfigMap) i ev j,
  ev ∈ events_of plBytes i items ->
  patch_index ev = Some j ->
  i <= j < i + length items /\
  exists configMap,
    items !! (j - i) = Some configMap /\
    checkFalcoRunsWithDrivers (currEngineKind configMap) = None /\
    ev = EvPatch j (cm_Namespace configMap) (cm_Name configMap) JSONPatchType plBytes.
Proof.
  induction items as [|configMap items IH]; intros i ev j Hin Hj.
  - apply elem_of_nil in Hin. destruct Hin.
  - rewrite events_of_cons in Hin. apply elem_of_cons in Hin as [->|Hin].
    + unfold body_event in *.
      destruct (checkFalcoRunsWithDrivers (currEngineKind configMap)) eqn:Hc;
        [discriminate Hj|].
      injection Hj as <-. cbn [length]. split; [lia|].
      exists configMap. rewrite Nat.sub_diag. auto.
    + destruct (IH _ _ _ Hin Hj) as (Hb & cm & Hl & Hc & ->).
      cbn [length]. split; [lia|].
      exists cm. replace (j - i) with (S (j - S i)) by lia. auto.
Qed.

Lemma events_of_no_store plBytes : forall (items : list ConfigMap) i,
  forallb (fun ev => negb (is_store ev)) (events_of plBytes i items) = true.
Proof.
  induction items as [|configMap items IH]; intros i; [reflexivity|].
  rewrite events_of_cons. cbn [forallb]. rewrite IH, andb_true_r.
  unfold body_event. destruct (checkFalcoRunsWithDrivers _); reflexivity.
Qed.

(** When the validator rejects every item, the events are the warnings. *)
Lemma events_of_all_rejected plBytes : forall (items : list ConfigMap) i,
  Forall (fun configMap =>
    exists e, drivertype_Parse (currEngineKind configMap) = Failed e) items ->
  events_of plBytes i items =
    map (fun configMap =>
           EvLog LWarn "Avoid updating Falco configMap"
             [("configMap", cm_Name configMap);
              ("reason",
               "engine.kind is not driver driven: " +:+ currEngineKind configMap)])
        items.
Proof.
  induction items as [|configMap items IH]; intros i H; [reflexivity|].
  apply Forall_cons in H as [[e He] H].
  rewrite events_of_cons. cbn [map]. rewrite (IH _ H). f_equal.
  unfold body_event. rewrite (check_rejects _ _ He). reflexivity.
Qed.

(** Turns that end without an error or a panic can be cut off the front of
    the loop. *)
Lemma for_prefix cl (m : ConfigMapList) plBytes rest : forall n i w w',
  for_configMaps cl m plBytes n i w = (Ret tt, w') ->
  for_configMaps cl m plBytes (n + rest) i w =
    for_configMaps cl m plBytes rest (i + n) w'.
Proof.
  induction n as [|n IH]; intros i w w' H.
  - cbn in H. injection H as <-. rewrite Nat.add_0_r. reflexivity.
  - cbn [for_configMaps] in H. cbn [Nat.add for_configMaps].
    destruct (Items m !! i) as [configMap|]; [|discriminate H].
    unfold bind in *.
    destruct (loop_body cl plBytes i configMap w) as [[[]|e|msg] w1];
      [|discriminate H|discriminate H].
    rewrite (IH _ _ _ H). f_equal. lia.
Qed.

(** With more iterations asked for than there are items left, the loop
    cannot end in the nil error: it stops on a failed patch or runs off the
    end of the slice. *)
Lemma for_never_nil cl (m : ConfigMapList) plBytes : forall remaining i w,
  i <= length (Items m) < i + remaining ->
  returned_nil (fst (for_configMaps cl m plBytes remaining i w)) = false.
Proof.
  induction remaining as [|remaining IH]; intros i w Hlen.
  - exfalso. lia.
  - destruct (Items m !! i) as [configMap|] eqn:Hi.
    + rewrite (for_step _ _ _ _ _ _ _ Hi). unfold bind.
      destruct (loop_body cl plBytes i configMap w) as [[[]|e|msg] w1];
        [|reflexivity|reflexivity].
      apply IH. apply lookup_lt_Some in Hi. lia.
    + rewrite (for_past_end _ _ _ _ _ _ Hi). reflexivity.
Qed.

(** When no patch of an accepted item fails, the loop takes a turn on
    every item left and then indexes past the end of the slice. *)
Lemma for_run_through cl (m : ConfigMapList) plBytes :
  (forall c configMap,
     configMap ∈ Items m ->
     checkFalcoRunsWithDrivers (currEngineKind configMap) = None ->
     snd (Patch_call cl c (cm_Namespace configMap) (cm_Name configMap)
            JSONPatchType plBytes) = None) ->
  forall remaining i w,
    i <= length (Items m) < i + remaining ->
    let r := for_configMaps cl m plBytes remaining i w in
    fst r = Panic "runtime error: index out of range" /\
    trace (snd r) = trace w ++ events_of plBytes i (drop i (Items m)).
Proof.
  intros Hok. induction remaining as [|remaining IH]; intros i w Hlen; cbv zeta.
  - exfalso. lia.
  - destruct (Items m !! i) as [configMap|] eqn:Hi.
    + rewrite (for_step _ _ _ _ _ _ _ Hi), (drop_S _ _ _ Hi), events_of_cons.
      assert (Hb : exists w1, loop_body cl plBytes i configMap w = (Ret tt, w1) /\
                trace w1 = trace w ++ [body_event plBytes i configMap]).
      { unfold body_event.
        destruct (checkFalcoRunsWithDrivers (currEngineKind configMap)) as [err|] eqn:Hc.
        - rewrite (loop_body_skip _ _ _ _ _ _ Hc). eauto.
        - rewrite (loop_body_patch _ _ _ _ _ Hc). cbv zeta.
          rewrite (Hok _ _ (list_elem_of_lookup_2 _ _ _ Hi) Hc). eauto. }
      destruct Hb as (w1 & Hb & Htr). rewrite (bind_Ret _ _ _ _ _ Hb).
      destruct (IH (S i) w1) as [Hp Htr'];
        [apply lookup_lt_Some in Hi; lia|]. split; [exact Hp|].
      rewrite Htr', Htr, <- app_assoc. reflexivity.
    + rewrite (for_past_end _ _ _ _ _ _ Hi).
      rewrite drop_ge by (apply lookup_ge_None_1, Hi). cbn.
      rewrite app_nil_r. auto.
Qed.

(** *** The cluster patcher *)

(** The patcher, once the client is built and the listing has come back. *)
Lemma k8s_after_list o d w cl lm items :
  new_client o = Ok cl ->
  List_call cl (cluster w) (Namespace o) labelSelector = Ok (lm, items) ->
  replaceDriverTypeInK8SConfigMap o d w =
    for_configMaps cl (mkList lm items) (plBytes_of d)
      (N.to_nat (ConfigMapList_Size (mkList lm items))) 0
      (emit (EvList (Namespace o) labelSelector) w).
Proof.
  intros Hcl Hlist. unfold replaceDriverTypeInK8SConfigMap.
  rewrite Hcl. unfold lift, ret, bind, ConfigMaps_List. rewrite Hlist.
  rewrite Size_nonzero. reflexivity.
Qed.

(** The cluster patcher never returns the nil error. *)
Lemma k8s_never_returns_nil o d w :
  returned_nil (fst (replaceDriverTypeInK8SConfigMap o d w)) = false.
Proof.
  unfold replaceDriverTypeInK8SConfigMap.
  destruct (new_client o) as [cl|e]; [|reflexivity].
  unfold lift, ret, bind, ConfigMaps_List.
  destruct (List_call cl (cluster w) (Namespace o) labelSelector) as [[lm items]|e];
    [|reflexivity].
  rewrite Size_nonzero. apply for_never_nil.
  pose proof (Size_gt_length (mkList lm items)). lia.
Qed.

Lemma events_of_lookup plBytes : forall (items : list ConfigMap) i j,
  events_of plBytes i items !! j = body_event plBytes (i + j) <$> items !! j.
Proof.
  induction items as [|configMap items IH]; intros i j; [reflexivity|].
  rewrite events_of_cons. destruct j as [|j]; cbn [lookup list_lookup].
  - rewrite Nat.add_0_r. reflexivity.
  - rewrite IH. f_equal. f_equal. lia.
Qed.

Lemma events_of_length plBytes : forall (items : list ConfigMap) i,
  length (events_of plBytes i items) = length items.
Proof.
  induction items as [|configMap items IH]; intros i; [reflexivity|].
  rewrite events_of_cons. cbn [length]. rewrite IH. reflexivity.
Qed.

(** C1.  What the code does when the listing comes back with no item: the
    size test does not fire, since a protobuf size is never zero, and the
    first turn of the loop indexes the empty slice.  The patcher panics; it
    returns no error, and it has made no call but the listing. *)
Theorem empty_listing_panics o d w cl lm :
  new_client o = Ok cl ->
  List_call cl (cluster w) (Namespace o) labelSelector = Ok (lm, []) ->
  replaceDriverTypeInK8SConfigMap o d w =
    (Panic "runtime error: index out of range",
     emit (EvList (Namespace o) labelSelector) w).
Proof.
  intros Hcl Hlist. rewrite (k8s_after_list _ _ _ _ _ _ Hcl Hlist).
  pose proof (Size_gt_length (mkList lm [])) as Hsz.
  destruct (N.to_nat (ConfigMapList_Size (mkList lm []))) as [|n]; [cbn in Hsz; lia|].
  apply for_past_end. reflexivity.
Qed.

(** C2.  What the code does on a listing in which the item at position [k]
    is not eligible, every other item is, and no patch call fails: each
    eligible item gets its patch and the item at [k] gets a warning and no
    patch, and then the loop, bounded by the size in bytes, indexes past the
    last item.  The patcher panics instead of returning success. *)
Theorem one_ineligible_then_panic o d w cl lm items k configMapK :
  new_client o = Ok cl ->
  List_call cl (cluster w) (Namespace o) labelSelector = Ok (lm, items) ->
  items !! k = Some configMapK ->
  (exists e, drivertype_Parse (currEngineKind configMapK) = Failed e) ->
  (forall j configMap, j <> k -> items !! j = Some configMap ->
     exists dt, drivertype_Parse (currEngineKind configMap) = Ok dt) ->
  (forall c configMap, configMap ∈ items ->
     snd (Patch_call cl c (cm_Namespace configMap) (cm_Name configMap)
            JSONPatchType (plBytes_of d)) = None) ->
  let r := replaceDriverTypeInK8SConfigMap o d w in
  fst r = Panic "runtime error: index out of range" /\
  exists evs,
    trace (snd r) = trace w ++ EvList (Namespace o) labelSelector :: evs /\
    length evs = length items /\
    evs !! k = Some (skip_event configMapK) /\
    (forall j configMap, j <> k -> items !! j = Some configMap ->
       evs !! j = Some (patch_event d j configMap)).
Proof.
  intros Hcl Hlist Hk [e He] Hothers Hpatch. cbv zeta.
  rewrite (k8s_after_list _ _ _ _ _ _ Hcl Hlist).
  destruct (for_run_through cl (mkList lm items) (plBytes_of d)
              ltac:(intros; apply Hpatch; assumption)
              (N.to_nat (ConfigMapList_Size (mkList lm items))) 0
              (emit (EvList (Namespace o) labelSelector) w)) as [Hp Htr].
  { pose proof (Size_gt_length (mkList lm items)). lia. }
  split; [exact Hp|].
  exists (events_of (plBytes_of d) 0 items).
  split; [rewrite Htr, trace_emit, <- app_assoc; reflexivity|].
  split; [apply events_of_length|].
  split.
  - rewrite events_of_lookup, Hk. cbn. unfold body_event, skip_event.
    rewrite (check_rejects _ _ He). reflexivity.
  - intros j configMap Hj Hl. rewrite events_of_lookup, Hl. cbn.
    destruct (Hothers _ _ Hj Hl) as [dt Hdt].
    unfold body_event, patch_event. rewrite (check_accepts _ _ Hdt). reflexivity.
Qed.

(** C3.  When the turns on the first [k] items end without a failure and the
    patch call for the item at position [k] fails with [e], the patcher
    returns [e]; the call at [k] is the last call of the run and is made
    once, and every patch call before it is for a position below [k]: no
    item after [k] gets a patch attempt and nothing is retried. *)
Theorem patch_failure_aborts o d w cl lm items k configMap wk c' e :
  new_client o = Ok cl ->
  List_call cl (cluster w) (Namespace o) labelSelector = Ok (lm, items) ->
  for_configMaps cl (mkList lm items) (plBytes_of d) k 0
    (emit (EvList (Namespace o) labelSelector) w) = (Ret tt, wk) ->
  items !! k = Some configMap ->
  checkFalcoRunsWithDrivers (currEngineKind configMap) = None ->
  Patch_call cl (cluster wk) (cm_Namespace configMap) (cm_Name configMap)
    JSONPatchType (plBytes_of d) = (c', Some e) ->
  let r := replaceDriverTypeInK8SConfigMap o d w in
  fst r = Err e /\
  exists evs,
    trace (snd r) =
      trace w ++ EvList (Namespace o) labelSelector :: evs ++ [patch_event d k configMap] /\
    Forall (fun ev => forall j, patch_index ev = Some j -> j < k) evs.
Proof.
  intros Hcl Hlist Hpre Hk Hc Hfail. cbv zeta.
  rewrite (k8s_after_list _ _ _ _ _ _ Hcl Hlist).
  pose proof (Size_gt_length (mkList lm items)) as Hsz. cbn [Items] in Hsz.
  pose proof (lookup_lt_Some _ _ _ Hk) as Hlt.
  replace (N.to_nat (ConfigMapList_Size (mkList lm items)))
    with (k + S (N.to_nat (ConfigMapList_Size (mkList lm items)) - S k)) by lia.
  rewrite (for_prefix _ _ _ _ _ _ _ _ Hpre). cbn [Nat.add].
  rewrite (for_step cl (mkList lm items) _ _ _ _ _ Hk).
  assert (Hb : loop_body cl (plBytes_of d) k configMap wk =
               (Err e, mkWorld (fs wk) c' (store wk)
                         (trace wk ++ [patch_event d k configMap]))).
  { rewrite (loop_body_patch _ _ _ _ _ Hc). cbv zeta. rewrite Hfail. reflexivity. }
  rewrite (bind_Err _ _ _ _ _ Hb). cbn [fst snd trace]. split; [reflexivity|].
  destruct (for_trace cl (mkList lm items) (plBytes_of d) k 0
              (emit (EvList (Namespace o) labelSelector) w))
    as (n & Hn & Htr & _).
  rewrite Hpre in Htr. cbn [snd] in Htr.
  exists (events_of (plBytes_of d) 0 (take n (drop 0 items))).
  split; [rewrite Htr, trace_emit, <- !app_assoc; reflexivity|].
  apply Forall_forall. intros ev Hin j Hj.
  destruct (events_of_patch _ _ _ _ _ Hin Hj) as [Hb' _].
  rewrite length_take in Hb'. lia.
Qed.

(** C5.  What the cluster patcher does on a listing in which no item has
    a driver engine kind: it logs one warning per item, patches nothing and
    leaves the cluster and the files as they were, and then, instead of
    returning success, panics on the index past the last item. *)
Theorem cluster_all_ineligible_panics o d w cl lm items :
  new_client o = Ok cl ->
  List_call cl (cluster w) (Namespace o) labelSelector = Ok (lm, items) ->
  Forall (fun configMap =>
    exists e, drivertype_Parse (currEngineKind configMap) = Failed e) items ->
  let r := replaceDriverTypeInK8SConfigMap o d w in
  fst r = Panic "runtime error: index out of range" /\
  cluster (snd r) = cluster w /\
  fs (snd r) = fs w /\
  trace (snd r) =
    trace w ++ EvList (Namespace o) labelSelector :: map skip_event items.
Proof.
  intros Hcl Hlist Hall. cbv zeta.
  rewrite (k8s_after_list _ _ _ _ _ _ Hcl Hlist).
  set (w0 := emit (EvList (Namespace o) labelSelector) w).
  set (size := N.to_nat (ConfigMapList_Size (mkList lm items))).
  destruct (for_run_through cl (mkList lm items) (plBytes_of d)) with
    (remaining := size) (i := 0) (w := w0) as [Hp Htr].
  { intros c configMap Hin Hc. cbn [Items] in Hin.
    destruct (proj1 (Forall_forall _ _) Hall _ Hin) as [e He].
    rewrite (check_rejects _ _ He) in Hc. discriminate Hc. }
  { pose proof (Size_gt_length (mkList lm items)). unfold size. lia. }
  destruct (for_trace cl (mkList lm items) (plBytes_of d) size 0 w0)
    as (n & _ & _ & Hfs & _ & Hcluster).
  split; [exact Hp|]. split; [|split; [exact Hfs|]].
  - rewrite Hcluster; [reflexivity|]. cbn [Items drop].
    rewrite (events_of_all_rejected _ (take n items) 0)
      by (apply Forall_take; exact Hall).
    apply forallb_forall. intros ev [configMap [<- _]]%in_map_iff. reflexivity.
  - rewrite Htr. cbn [Items drop]. unfold w0. rewrite trace_emit, <- app_assoc.
    rewrite (events_of_all_rejected _ _ _ Hall). reflexivity.
Qed.

(** The payload is the JSON patch of the spec when the encoder copies
    plain strings between quotes. *)
Lemma plBytes_of_document d :
  (forall s, json_plain s = true -> json_string s = quoted s) ->
  json_plain (DriverType_String d) = true ->
  plBytes_of d = patch_document (DriverType_String d).
Proof.
  intros Hjson Hd. unfold plBytes_of, json_Marshal, json_patchDriverTypeValue.
  cbn [map strings_Join Op Path Value].
  rewrite !Hjson by (exact Hd || reflexivity).
  unfold patch_document, quoted. rewrite !append_assoc. reflexivity.
Qed.

(** While the patch calls succeed, the loop takes its turns one after the
    other: [n] turns from position [i] end normally and have made the calls
    of those [n] items. *)
Lemma for_prefix_ok cl (m : ConfigMapList) plBytes : forall n i w,
  i + n <= length (Items m) ->
  (forall c configMap,
     configMap ∈ take n (drop i (Items m)) ->
     snd (Patch_call cl c (cm_Namespace configMap) (cm_Name configMap)
            JSONPatchType plBytes) = None) ->
  exists w',
    for_configMaps cl m plBytes n i w = (Ret tt, w') /\
    trace w' = trace w ++ events_of plBytes i (take n (drop i (Items m))).
Proof.
  induction n as [|n IH]; intros i w Hlen Hok.
  - exists w. cbn. rewrite app_nil_r. auto.
  - destruct (lookup_lt_is_Some_2 (Items m) i ltac:(lia)) as [configMap Hi].
    rewrite (drop_S _ _ _ Hi) in Hok |- *. cbn [take] in Hok |- *.
    rewrite (for_step _ _ _ _ _ _ _ Hi), events_of_cons.
    assert (Hb : exists w1, loop_body cl plBytes i configMap w = (Ret tt, w1) /\
              trace w1 = trace w ++ [body_event plBytes i configMap]).
    { unfold body_event.
      destruct (checkFalcoRunsWithDrivers (currEngineKind configMap)) as [err|] eqn:Hc.
      - rewrite (loop_body_skip _ _ _ _ _ _ Hc). eauto.
      - rewrite (loop_body_patch _ _ _ _ _ Hc). cbv zeta.
        rewrite (Hok _ configMap) by (apply elem_of_cons; left; reflexivity). eauto. }
    destruct Hb as (w1 & Hb & Htr). rewrite (bind_Ret _ _ _ _ _ Hb).
    destruct (IH (S i) w1) as (w' & Hrun & Htr'); [lia| |].
    { intros c cm Hin. apply Hok. apply elem_of_cons. right. exact Hin. }
    exists w'. split; [exact Hrun|].
    rewrite Htr', Htr, <- app_assoc. reflexivity.
Qed.

(** C8.  With an encoder that copies plain strings between quotes, and a
    driver type whose canonical string is plain.  For every eligible item of
    the listing: when the patch calls for the items before it succeed, the
    run of the patcher submits for it, right after the calls of those items,
    one JSON patch under its own name and namespace whose payload is the
    array of the one operation [replace] of [/data/engine.kind] by the
    canonical string of the new driver type.  And every patch call of a run
    is such a call, made for an eligible item of the listing. *)
Theorem patch_payload o d w cl lm items :
  (forall s, json_plain s = true -> json_string s = quoted s) ->
  json_plain (DriverType_String d) = true ->
  new_client o = Ok cl ->
  List_call cl (cluster w) (Namespace o) labelSelector = Ok (lm, items) ->
  (forall k configMap,
     items !! k = Some configMap ->
     (exists dt, drivertype_Parse (currEngineKind configMap) = Ok dt) ->
     (forall c configMap',
        configMap' ∈ take k items ->
        snd (Patch_call cl c (cm_Namespace configMap') (cm_Name configMap')
               JSONPatchType (patch_document (DriverType_String d))) = None) ->
     exists evs,
       trace (snd (replaceDriverTypeInK8SConfigMap o d w)) =
         trace w ++ EvList (Namespace o) labelSelector
           :: events_of (patch_document (DriverType_String d)) 0 (take k items)
           ++ EvPatch k (cm_Namespace configMap) (cm_Name configMap) JSONPatchType
                (patch_document (DriverType_String d))
              :: evs) /\
  exists evs,
    trace (snd (replaceDriverTypeInK8SConfigMap o d w)) =
      trace w ++ EvList (Namespace o) labelSelector :: evs /\
    Forall (fun ev => forall j, patch_index ev = Some j ->
      exists configMap,
        items !! j = Some configMap /\
        checkFalcoRunsWithDrivers (currEngineKind configMap) = None /\
        ev = EvPatch j (cm_Namespace configMap) (cm_Name configMap) JSONPatchType
               (patch_document (DriverType_String d))) evs.
Proof.
  intros Hjson Hd Hcl Hlist.
  rewrite <- (plBytes_of_document d Hjson Hd).
  rewrite (k8s_after_list _ _ _ _ _ _ Hcl Hlist).
  set (m := mkList lm items). set (pl := plBytes_of d).
  set (w0 := emit (EvList (Namespace o) labelSelector) w).
  split.
  - intros k configMap Hk [dt Hdt] Hok.
    pose proof (Size_gt_length m) as Hsz. cbn [Items m] in Hsz.
    pose proof (lookup_lt_Some _ _ _ Hk) as Hlt.
    destruct (for_prefix_ok cl m pl k 0 w0) as (wk & Hpre & Htrk).
    { cbn [Items m]. lia. }
    { intros c cm Hin. apply Hok. exact Hin. }
    cbn [Items m drop] in Htrk.
    replace (N.to_nat (ConfigMapList_Size m))
      with (k + S (N.to_nat (ConfigMapList_Size m) - S k)) by lia.
    rewrite (for_prefix _ _ _ _ _ _ _ _ Hpre). cbn [Nat.add].
    rewrite (for_step cl m _ _ _ _ _ Hk).
    pose proof (loop_body_patch cl pl k configMap wk (check_accepts _ _ Hdt)) as Hb.
    cbv zeta in Hb. unfold bind. rewrite Hb.
    set (w2 := mkWorld _ _ _ _).
    assert (Htr2 : trace w2 =
              trace w ++ EvList (Namespace o) labelSelector
                :: events_of pl 0 (take k items)
                ++ [EvPatch k (cm_Namespace configMap) (cm_Name configMap)
                      JSONPatchType pl]).
    { unfold w2. cbn [trace]. rewrite Htrk. unfold w0.
      rewrite trace_emit, <- !app_assoc. reflexivity. }
    destruct (snd (Patch_call cl (cluster wk) (cm_Namespace configMap)
                     (cm_Name configMap) JSONPatchType pl)).
    + exists []. cbn [snd]. rewrite Htr2. reflexivity.
    + destruct (for_trace cl m pl (N.to_nat (ConfigMapList_Size m) - S k) (S k) w2)
        as (n & _ & Htr & _).
      exists (events_of pl (S k) (take n (drop (S k) (Items m)))).
      rewrite Htr, Htr2, <- app_assoc, <- app_comm_cons, <- app_assoc. reflexivity.
  - destruct (for_trace cl m pl (N.to_nat (ConfigMapList_Size m)) 0 w0)
      as (n & _ & Htr & _).
    eexists. split; [rewrite Htr; unfold w0; rewrite trace_emit, <- app_assoc; reflexivity|].
    apply Forall_forall. intros ev Hin j Hj.
    destruct (events_of_patch _ _ _ _ _ Hin Hj) as (_ & configMap & Hl & Hc & ->).
    exists configMap. cbn [Items m drop] in Hl. rewrite Nat.sub_0_r in Hl.
    apply lookup_take_Some in Hl as [Hl _]. auto.
Qed.

(** C9.  A ConfigMap whose [Data] has no [engine.kind] key is read as
    having the empty engine kind; when the empty string is no driver type,
    the turn on it logs the warning, makes no other call, changes nothing
    and ends normally, and the loop goes on with the next position. *)
Theorem missing_key_is_skipped cl plBytes i configMap w e :
  cm_Data configMap !! configMapEngineKindKey = None ->
  drivertype_Parse EmptyString = Failed e ->
  currEngineKind configMap = EmptyString /\
  loop_body cl plBytes i configMap w =
    (Ret tt,
     emit (EvLog LWarn "Avoid updating Falco configMap"
             [("configMap", cm_Name configMap);
              ("reason", "engine.kind is not driver driven: ")]) w) /\
  (forall (m : ConfigMapList) remaining,
     Items m !! i = Some configMap ->
     for_configMaps cl m plBytes (S remaining) i w =
       for_configMaps cl m plBytes remaining (S i)
         (emit (EvLog LWarn "Avoid updating Falco configMap"
                  [("configMap", cm_Name configMap);
                   ("reason", "engine.kind is not driver driven: ")]) w)).
Proof.
  intros Hdata Hparse.
  assert (Hkind : currEngineKind configMap = EmptyString).
  { unfold currEngineKind. rewrite Hdata. reflexivity. }
  assert (Hbody : loop_body cl plBytes i configMap w =
    (Ret tt,
     emit (EvLog LWarn "Avoid updating Falco configMap"
             [("configMap", cm_Name configMap);
              ("reason", "engine.kind is not driver driven: ")]) w)).
  { apply loop_body_skip. rewrite Hkind. apply (check_rejects _ _ Hparse). }
  split; [exact Hkind|]. split; [exact Hbody|].
  intros m remaining Hi. rewrite (for_step _ _ _ _ _ _ _ Hi).
  rewrite (bind_Ret _ _ _ _ _ Hbody). reflexivity.
Qed.

(** *** The command and the store *)

Lemma store_untouched_refl w : store_untouched w w.
Proof. split; [reflexivity|]. exists []. rewrite app_nil_r. auto. Qed.

Lemma store_untouched_trans w1 w2 w3 :
  store_untouched w1 w2 -> store_untouched w2 w3 -> store_untouched w1 w3.
Proof.
  intros [Hs1 (evs1 & Ht1 & Hn1)] [Hs2 (evs2 & Ht2 & Hn2)].
  split; [congruence|]. exists (evs1 ++ evs2).
  split; [rewrite Ht2, Ht1, app_assoc; reflexivity|].
  rewrite forallb_app, Hn1, Hn2. reflexivity.
Qed.

Lemma store_untouched_emit ev w :
  is_store ev = false -> store_untouched w (emit ev w).
Proof.
  intros H. split; [reflexivity|]. exists [ev]. split; [reflexivity|].
  cbn. rewrite H. reflexivity.
Qed.

Lemma keeps_store_bind {A B} (m : M World A) (k : A -> M World B) :
  keeps_store m -> (forall a, keeps_store (k a)) -> keeps_store (bind m k).
Proof.
  intros Hm Hk w. specialize (Hm w). unfold bind.
  destruct (m w) as [[a|e|msg] w1]; cbn [snd] in *; [|exact Hm|exact Hm].
  exact (store_untouched_trans _ _ _ Hm (Hk a w1)).
Qed.

Lemma keeps_store_ret {A} (a : A) : keeps_store (ret a).
Proof. intros w. apply store_untouched_refl. Qed.

Lemma keeps_store_fail {A} e : keeps_store (fail (A := A) e).
Proof. intros w. apply store_untouched_refl. Qed.

Lemma keeps_store_lift {A} (r : result A) : keeps_store (lift r).
Proof. destruct r; intros w; apply store_untouched_refl. Qed.

Lemma keeps_store_Warn msg args : keeps_store (Logger_Warn msg args).
Proof. intros w. apply store_untouched_emit. reflexivity. Qed.

Lemma keeps_store_ReadFile path : keeps_store (os_ReadFile path).
Proof.
  intros w. unfold os_ReadFile.
  destruct (ReadFile_fault _ _); [|destruct (fs w !! path)];
    apply store_untouched_emit; reflexivity.
Qed.

Lemma keeps_store_Stat path : keeps_store (os_Stat path).
Proof.
  intros w. unfold os_Stat.
  destruct (Stat_fault _ _); [|destruct (fs w !! path)];
    apply store_untouched_emit; reflexivity.
Qed.

Lemma keeps_store_WriteFile path data perm : keeps_store (os_WriteFile path data perm).
Proof.
  intros w. unfold os_WriteFile.
  destruct (WriteFile_fault _ _ _ _) as [[e fs']|];
    (split; [reflexivity|]; eexists [_]; split; reflexivity).
Qed.

Lemma keeps_store_List cl ns sel : keeps_store (ConfigMaps_List cl ns sel).
Proof.
  intros w. unfold ConfigMaps_List.
  destruct (List_call _ _ _ _) as [[lm items]|e];
    apply store_untouched_emit; reflexivity.
Qed.

Lemma keeps_store_for cl (m : ConfigMapList) plBytes remaining i :
  keeps_store (for_configMaps cl m plBytes remaining i).
Proof.
  intros w.
  destruct (for_trace cl m plBytes remaining i w) as (n & _ & Htr & _ & Hst & _).
  split; [exact Hst|]. eexists. split; [exact Htr|]. apply events_of_no_store.
Qed.

Create HintDb keeps.

#[local] Hint Resolve keeps_store_ret keeps_store_fail keeps_store_lift
  keeps_store_Warn keeps_store_ReadFile keeps_store_Stat keeps_store_WriteFile
  keeps_store_List keeps_store_for : keeps.

(** Splits a computation at its binds and branches and closes each call
    with the lemma on that call. *)
Ltac keeps_store_steps :=
  repeat first
    [ solve [auto with keeps]
    | apply keeps_store_bind; [|intros ?]
    | match goal with
      | |- keeps_store (match ?x with _ => _ end) => destruct x
      | |- keeps_store (if ?b then _ else _) => destruct b
      end ].

Lemma keeps_store_local o d : keeps_store (replaceDriverTypeInFalcoConfig o d).
Proof.
  unfold replaceDriverTypeInFalcoConfig, ReplaceTextInFile. keeps_store_steps.
Qed.

Lemma keeps_store_k8s o d : keeps_store (replaceDriverTypeInK8SConfigMap o d).
Proof. unfold replaceDriverTypeInK8SConfigMap. keeps_store_steps. Qed.

Lemma keeps_store_commit o d : keeps_store (commit o d).
Proof.
  unfold commit. destruct (decide _); [apply keeps_store_local|apply keeps_store_k8s].
Qed.

Lemma config_StoreDriver_trace cfg file w :
  trace (snd (config_StoreDriver cfg file w)) = trace w ++ [EvStoreDriver cfg file].
Proof.
  unfold config_StoreDriver. cbv zeta.
  destruct (snd (StoreDriver_call (store w) cfg file)); reflexivity.
Qed.

Lemma RunDriverConfig_unfold o w :
  RunDriverConfig o w =
    bind (if Update o then commit o (Type_ (Driver o)) else ret tt)
      (fun _ => config_StoreDriver (ToDriverConfig (Driver o)) (ConfigFile o))
      (emit (info_event o) w).
Proof. reflexivity. Qed.

(** With the update flag on, the command runs [commit] after its log
    line.  When [commit] returns the nil error, [StoreDriver] is called next,
    once, with the driver type and metadata of the options and the
    configuration file, and its result is the result of the command.  When
    [commit] returns an error, the command returns that error, the state of
    the store is unchanged and no call to [StoreDriver] has been made. *)
Theorem store_follows_commit o w :
  Update o = true ->
  let w1 := emit (info_event o) w in
  (forall w2,
     commit o (Type_ (Driver o)) w1 = (Ret tt, w2) ->
     RunDriverConfig o w =
       config_StoreDriver (ToDriverConfig (Driver o)) (ConfigFile o) w2 /\
     trace (snd (RunDriverConfig o w)) = trace w2 ++ [store_event o] /\
     store_untouched w w2) /\
  (forall e w2,
     commit o (Type_ (Driver o)) w1 = (Err e, w2) ->
     RunDriverConfig o w = (Err e, w2) /\
     store_untouched w w2).
Proof.
  intros Hup w1.
  assert (Hquiet : forall w2,
            w2 = snd (commit o (Type_ (Driver o)) w1) -> store_untouched w w2).
  { intros w2 ->. apply (store_untouched_trans _ w1).
    - apply store_untouched_emit. reflexivity.
    - apply keeps_store_commit. }
  rewrite RunDriverConfig_unfold, Hup. fold w1. split.
  - intros w2 Hc. rewrite (bind_Ret _ _ _ _ _ Hc).
    split; [reflexivity|]. split; [apply config_StoreDriver_trace|].
    apply Hquiet. rewrite Hc. reflexivity.
  - intros e w2 Hc. rewrite (bind_Err _ _ _ _ _ Hc).
    split; [reflexivity|]. apply Hquiet. rewrite Hc. reflexivity.
Qed.

(** C7.  What the command does, with the update flag on and a namespace
    given, when every ConfigMap of the listing is skipped: it logs its line,
    lists, logs one warning per ConfigMap, and then panics in the loop of the
    cluster patcher on the index past the last item.  [commit] does not
    return the nil error, [StoreDriver] is not called and the store is as it
    was. *)
Theorem all_skipped_in_cluster_stores_nothing o w cl lm items :
  Update o = true ->
  Namespace o <> EmptyString ->
  new_client o = Ok cl ->
  List_call cl (cluster w) (Namespace o) labelSelector = Ok (lm, items) ->
  Forall (fun configMap =>
    exists e, drivertype_Parse (currEngineKind configMap) = Failed e) items ->
  let r := RunDriverConfig o w in
  fst r = Panic "runtime error: index out of range" /\
  store (snd r) = store w /\
  trace (snd r) =
    trace w ++ info_event o :: EvList (Namespace o) labelSelector
      :: map skip_event items.
Proof.
  intros Hup Hns Hcl Hlist Hall. cbv zeta.
  rewrite RunDriverConfig_unfold, Hup. unfold commit.
  destruct (decide (Namespace o = EmptyString)) as [Heq|_]; [contradiction|].
  set (w1 := emit (info_event o) w).
  rewrite (bind_Panic _ _ w1 "runtime error: index out of range"
             (snd (replaceDriverTypeInK8SConfigMap o (Type_ (Driver o)) w1))).
  2:{ rewrite (k8s_after_list o (Type_ (Driver o)) w1 cl lm items Hcl Hlist).
      destruct (for_run_through cl (mkList lm items) (plBytes_of (Type_ (Driver o))))
        with (remaining := N.to_nat (ConfigMapList_Size (mkList lm items)))
             (i := 0) (w := emit (EvList (Namespace o) labelSelector) w1) as [Hp _].
      { intros c configMap Hin Hc. cbn [Items] in Hin.
        destruct (proj1 (Forall_forall _ _) Hall _ Hin) as [e He].
        rewrite (check_rejects _ _ He) in Hc. discriminate Hc. }
      { pose proof (Size_gt_length (mkList lm items)). lia. }
      rewrite <- Hp. apply surjective_pairing. }
  cbn [fst snd]. split; [reflexivity|].
  rewrite (k8s_after_list o (Type_ (Driver o)) w1 cl lm items Hcl Hlist).
  destruct (for_run_through cl (mkList lm items) (plBytes_of (Type_ (Driver o))))
    with (remaining := N.to_nat (ConfigMapList_Size (mkList lm items)))
         (i := 0) (w := emit (EvList (Namespace o) labelSelector) w1) as [_ Htr].
  { intros c configMap Hin Hc. cbn [Items] in Hin.
    destruct (proj1 (Forall_forall _ _) Hall _ Hin) as [e He].
    rewrite (check_rejects _ _ He) in Hc. discriminate Hc. }
  { pose proof (Size_gt_length (mkList lm items)). lia. }
  destruct (for_trace cl (mkList lm items) (plBytes_of (Type_ (Driver o)))
              (N.to_nat (ConfigMapList_Size (mkList lm items))) 0
              (emit (EvList (Namespace o) labelSelector) w1))
    as (n & _ & _ & _ & Hst & _).
  split; [exact Hst|].
  rewrite Htr. cbn [Items drop]. unfold w1. rewrite !trace_emit, <- !app_assoc.
  rewrite (events_of_all_rejected _ _ _ Hall). reflexivity.
Qed.

(** C10.  With the update flag off, the command makes two calls, its log
    line and [StoreDriver] with the driver type and metadata of the options:
    no call reads or writes the configuration file or the cluster, whose
    states are unchanged, and the store is the one [StoreDriver] leaves. *)
Theorem no_update_only_stores o w :
  Update o = false ->
  let r := RunDriverConfig o w in
  trace (snd r) = trace w ++ [info_event o; store_event o] /\
  forallb (fun ev => negb (touches_config ev)) [info_event o; store_event o] = true /\
  fs (snd r) = fs w /\
  cluster (snd r) = cluster w /\
  store (snd r) =
    fst (StoreDriver_call (store w) (ToDriverConfig (Driver o)) (ConfigFile o)) /\
  fst r =
    match snd (StoreDriver_call (store w) (ToDriverConfig (Driver o)) (ConfigFile o)) with
    | Some e => Err e
    | None => Ret tt
    end.
Proof.
  intros Hup. cbv zeta. rewrite RunDriverConfig_unfold, Hup.
  unfold bind, ret, config_StoreDriver. cbv zeta.
  cbn [emit fs cluster store trace].
  destruct (snd (StoreDriver_call _ _ _));
    cbn [fst snd fs cluster store trace];
    rewrite <- app_assoc; repeat split; reflexivity.
Qed.

End Properties.

(** ** Further properties: how the patchers and the command end *)

Section Coverage.

Context `{E : Env}.

Implicit Types (o : driverConfigOptions) (w : World) (cl : Clientset).
Implicit Types (configMap : ConfigMap) (d : DriverType).

(** *** The loop, whatever the cluster answers *)

Lemma events_of_no_file_call plBytes : forall (items : list ConfigMap) i,
  forallb (fun ev => negb (is_file_call ev)) (events_of plBytes i items) = true.
Proof.
  induction items as [|configMap items IH]; intros i; [reflexivity|].
  rewrite events_of_cons. cbn [forallb]. rewrite IH, andb_true_r.
  unfold body_event. destruct (checkFalcoRunsWithDrivers _); reflexivity.
Qed.

Lemma patch_positions_from plBytes (items : list ConfigMap) i :
  Forall (fun j => i <= j) (patch_positions (events_of plBytes i items)).
Proof.
  apply Forall_forall. intros j Hj.
  apply list_elem_of_omap in Hj as (ev & Hin & Hev).
  destruct (events_of_patch _ _ _ _ _ Hin Hev) as [Hb _]. lia.
Qed.

(** Positions go up by at least one from a patch call to the next. *)
Lemma patch_positions_sorted plBytes : forall (items : list ConfigMap) i,
  StronglySorted lt (patch_positions (events_of plBytes i items)).
Proof.
  induction items as [|configMap items IH]; intros i; [constructor|].
  rewrite events_of_cons. unfold patch_positions. cbn [omap list_omap].
  fold (patch_positions (events_of plBytes (S i) items)).
  unfold body_event.
  destruct (checkFalcoRunsWithDrivers (currEngineKind configMap)); cbn [patch_index].
  - apply IH.
  - constructor; [apply IH|].
    eapply Forall_impl; [apply (patch_positions_from plBytes items (S i))|].
    cbn. intros j Hj. lia.
Qed.

(** The loop, entered at [i] with more iterations to go than items left,
    ends in one of two ways: it has taken a turn on every item left and
    panics on the index past the last one, or the patch call for some item
    [k] has failed and its error is returned at once. *)
Lemma for_outcome cl (m : ConfigMapList) plBytes : forall remaining i w,
  i <= length (Items m) < i + remaining ->
  let r := for_configMaps cl m plBytes remaining i w in
  (fst r = Panic "runtime error: index out of range" /\
   trace (snd r) = trace w ++ events_of plBytes i (drop i (Items m)))
  \/
  (exists k configMap e c,
     i <= k /\ Items m !! k = Some configMap /\
     checkFalcoRunsWithDrivers (currEngineKind configMap) = None /\
     snd (Patch_call cl c (cm_Namespace configMap) (cm_Name configMap)
            JSONPatchType plBytes) = Some e /\
     fst r = Err e /\
     trace (snd r) =
       trace w ++ events_of plBytes i (take (k - i) (drop i (Items m)))
         ++ [EvPatch k (cm_Namespace configMap) (cm_Name configMap)
               JSONPatchType plBytes]).
Proof.
  induction remaining as [|remaining IH]; intros i w Hlen; cbv zeta.
  - exfalso. lia.
  - destruct (Items m !! i) as [configMap|] eqn:Hi.
    + rewrite (for_step _ _ _ _ _ _ _ Hi), (drop_S _ _ _ Hi).
      assert (Hnext : forall w1,
        loop_body cl plBytes i configMap w = (Ret tt, w1) ->
        trace w1 = trace w ++ [body_event plBytes i configMap] ->
        let r := for_configMaps cl m plBytes remaining (S i) w1 in
        (fst r = Panic "runtime error: index out of range" /\
         trace (snd r) =
           trace w ++ events_of plBytes i (configMap :: drop (S i) (Items m)))
        \/
        (exists k configMap' e c,
           i <= k /\ Items m !! k = Some configMap' /\
           checkFalcoRunsWithDrivers (currEngineKind configMap') = None /\
           snd (Patch_call cl c (cm_Namespace configMap') (cm_Name configMap')
                  JSONPatchType plBytes) = Some e /\
           fst r = Err e /\
           trace (snd r) =
             trace w ++
             events_of plBytes i (take (k - i) (configMap :: drop (S i) (Items m)))
               ++ [EvPatch k (cm_Namespace configMap') (cm_Name configMap')
                     JSONPatchType plBytes])).
      { intros w1 Hb Htr. cbv zeta.
        destruct (IH (S i) w1) as [[Hp Ht]|(k & cm' & e & c & Hk & Hl & Hc & He & Hr & Ht)].
        - apply lookup_lt_Some in Hi. lia.
        - left. split; [exact Hp|].
          rewrite Ht, Htr, events_of_cons, <- app_assoc. reflexivity.
        - right. exists k, cm', e, c.
          repeat (split; [first [lia|assumption]|]).
          replace (k - i) with (S (k - S i)) by lia. cbn [take].
          rewrite Ht, Htr, events_of_cons, <- !app_assoc. reflexivity. }
      destruct (checkFalcoRunsWithDrivers (currEngineKind configMap)) as [err|] eqn:Hc.
      * pose proof (loop_body_skip cl plBytes i configMap err w Hc) as Hb.
        rewrite (bind_Ret _ _ _ _ _ Hb). apply (Hnext _ Hb).
        rewrite trace_emit. unfold body_event. rewrite Hc. reflexivity.
      * pose proof (loop_body_patch cl plBytes i configMap w Hc) as Hb. cbv zeta in Hb.
        destruct (snd (Patch_call cl (cluster w) (cm_Namespace configMap)
                         (cm_Name configMap) JSONPatchType plBytes)) as [e|] eqn:Hp.
        -- rewrite (bind_Err _ _ _ _ _ Hb). right.
           exists i, configMap, e, (cluster w).
           rewrite Nat.sub_diag. cbn [take events_of fst snd trace app].
           repeat (split; [first [lia|assumption|reflexivity]|]). reflexivity.
        -- rewrite (bind_Ret _ _ _ _ _ Hb). apply (Hnext _ Hb).
           cbn [trace]. unfold body_event. rewrite Hc. reflexivity.
    + rewrite (for_past_end _ _ _ _ _ _ Hi). left.
      rewrite drop_ge by (apply lookup_ge_None_1, Hi). cbn.
      rewrite app_nil_r. auto.
Qed.

(** *** The cluster patcher *)

Lemma k8s_trace o d w :
  let r := replaceDriverTypeInK8SConfigMap o d w in
  fs (snd r) = fs w /\
  exists evs,
    trace (snd r) = trace w ++ evs /\
    forallb (fun ev => negb (is_file_call ev)) evs = true /\
    StronglySorted lt (patch_positions evs).
Proof.
  cbv zeta. unfold replaceDriverTypeInK8SConfigMap.
  destruct (new_client o) as [cl|e]; unfold lift, ret, fail, bind, ConfigMaps_List.
  2:{ split; [reflexivity|]. exists []. rewrite app_nil_r.
      repeat split; constructor. }
  destruct (List_call cl (cluster w) (Namespace o) labelSelector) as [[lm items]|e].
  2:{ split; [reflexivity|]. exists [EvList (Namespace o) labelSelector].
      repeat split; constructor. }
  rewrite Size_nonzero.
  destruct (for_trace cl (mkList lm items) (plBytes_of d)
              (N.to_nat (ConfigMapList_Size (mkList lm items))) 0
              (emit (EvList (Namespace o) labelSelector) w))
    as (n & _ & Htr & Hfs & _).
  split; [exact Hfs|]. eexists.
  split; [rewrite Htr, trace_emit, <- app_assoc; reflexivity|].
  split; [apply events_of_no_file_call|].
  apply patch_positions_sorted.
Qed.

(** X2.  Once the client is built and the listing has come back, a run of
    the cluster patcher ends in one of two ways.  Either every item has had
    its turn, a patch when its engine kind is a driver type and a warning
    otherwise, and the patcher panics on the index past the last item; or
    the patch call for some item [k] has failed, the items before [k] have
    had their turn, the call at [k] is the last call and the error of that
    call is what the patcher returns. *)
Theorem k8s_ends_in_panic_or_patch_error o d w cl lm items :
  new_client o = Ok cl ->
  List_call cl (cluster w) (Namespace o) labelSelector = Ok (lm, items) ->
  let r := replaceDriverTypeInK8SConfigMap o d w in
  (fst r = Panic "runtime error: index out of range" /\
   trace (snd r) =
     trace w ++ EvList (Namespace o) labelSelector
       :: events_of (plBytes_of d) 0 items)
  \/
  (exists k configMap e c,
     items !! k = Some configMap /\
     checkFalcoRunsWithDrivers (currEngineKind configMap) = None /\
     snd (Patch_call cl c (cm_Namespace configMap) (cm_Name configMap)
            JSONPatchType (plBytes_of d)) = Some e /\
     fst r = Err e /\
     trace (snd r) =
       trace w ++ EvList (Namespace o) labelSelector
         :: events_of (plBytes_of d) 0 (take k items)
         ++ [patch_event d k configMap]).
Proof.
  intros Hcl Hlist. cbv zeta.
  rewrite (k8s_after_list _ _ _ _ _ _ Hcl Hlist).
  destruct (for_outcome cl (mkList lm items) (plBytes_of d)
              (N.to_nat (ConfigMapList_Size (mkList lm items))) 0
              (emit (EvList (Namespace o) labelSelector) w))
    as [[Hp Ht]|(k & cm & e & c & _ & Hl & Hc & He & Hr & Ht)].
  { pose proof (Size_gt_length (mkList lm items)). lia. }
  - left. split; [exact Hp|].
    rewrite Ht, trace_emit, <- app_assoc. reflexivity.
  - right. exists k, cm, e, c. rewrite Nat.sub_0_r in Ht.
    repeat (split; [assumption|]).
    rewrite Ht, trace_emit, <- app_assoc. reflexivity.
Qed.

(** X3.  In every run of the cluster patcher, whatever the cluster
    answers, the positions of the patch calls go strictly up: the patches
    are made in listing order and no position is patched twice. *)
Theorem k8s_patches_in_listing_order o d w :
  exists evs,
    trace (snd (replaceDriverTypeInK8SConfigMap o d w)) = trace w ++ evs /\
    StronglySorted lt (patch_positions evs).
Proof.
  destruct (k8s_trace o d w) as (_ & evs & Htr & _ & Hs). eauto.
Qed.

(** X1.  With the update flag on and a namespace given, the command never
    returns the nil error and never writes the driver store: the cluster
    patcher ends in an error or a panic, and [StoreDriver] is not reached. *)
Theorem update_in_cluster_never_stores o w :
  Update o = true ->
  Namespace o <> EmptyString ->
  returned_nil (fst (RunDriverConfig o w)) = false /\
  store_untouched w (snd (RunDriverConfig o w)).
Proof.
  intros Hup Hns. rewrite RunDriverConfig_unfold, Hup.
  unfold commit. destruct (decide (Namespace o = EmptyString)) as [Heq|_]; [contradiction|].
  pose proof (k8s_never_returns_nil o (Type_ (Driver o)) (emit (info_event o) w)) as Hnil.
  pose proof (keeps_store_k8s o (Type_ (Driver o)) (emit (info_event o) w)) as Hst.
  unfold bind.
  destruct (replaceDriverTypeInK8SConfigMap o (Type_ (Driver o)) (emit (info_event o) w))
    as [[[]|e|msg] w1]; cbn [fst snd] in *; [discriminate Hnil| |];
    (split; [reflexivity|];
     apply (store_untouched_trans _ (emit (info_event o) w));
       [apply store_untouched_emit; reflexivity|exact Hst]).
Qed.

(** X9.  When the listing call fails, the cluster patcher returns its
    error, having made that one call: no ConfigMap is patched. *)
Theorem listing_failure_stops_patcher o d w cl e :
  new_client o = Ok cl ->
  List_call cl (cluster w) (Namespace o) labelSelector = Failed e ->
  replaceDriverTypeInK8SConfigMap o d w =
    (Err e, emit (EvList (Namespace o) labelSelector) w).
Proof.
  intros Hcl Hlist. unfold replaceDriverTypeInK8SConfigMap.
  rewrite Hcl. unfold lift, ret, bind, ConfigMaps_List. rewrite Hlist. reflexivity.
Qed.


(** *** The local patcher and the cluster *)

Lemma cluster_untouched_refl w : cluster_untouched w w.
Proof. split; [reflexivity|]. exists []. rewrite app_nil_r. auto. Qed.

Lemma cluster_untouched_trans w1 w2 w3 :
  cluster_untouched w1 w2 -> cluster_untouched w2 w3 -> cluster_untouched w1 w3.
Proof.
  intros [Hs1 (evs1 & Ht1 & Hn1)] [Hs2 (evs2 & Ht2 & Hn2)].
  split; [congruence|]. exists (evs1 ++ evs2).
  split; [rewrite Ht2, Ht1, app_assoc; reflexivity|].
  rewrite forallb_app, Hn1, Hn2. reflexivity.
Qed.

Lemma cluster_untouched_emit ev w :
  is_cluster_call ev = false -> cluster_untouched w (emit ev w).
Proof.
  intros H. split; [reflexivity|]. exists [ev]. split; [reflexivity|].
  cbn. rewrite H. reflexivity.
Qed.

Lemma keeps_cluster_bind {A B} (m : M World A) (k : A -> M World B) :
  keeps_cluster m -> (forall a, keeps_cluster (k a)) -> keeps_cluster (bind m k).
Proof.
  intros Hm Hk w. specialize (Hm w). unfold bind.
  destruct (m w) as [[a|e|msg] w1]; cbn [snd] in *; [|exact Hm|exact Hm].
  exact (cluster_untouched_trans _ _ _ Hm (Hk a w1)).
Qed.

Lemma keeps_cluster_ret {A} (a : A) : keeps_cluster (ret a).
Proof. intros w. apply cluster_untouched_refl. Qed.

Lemma keeps_cluster_lift {A} (r : result A) : keeps_cluster (lift r).
Proof. destruct r; intros w; apply cluster_untouched_refl. Qed.

Lemma keeps_cluster_Info msg args : keeps_cluster (Logger_Info msg args).
Proof. intros w. apply cluster_untouched_emit. reflexivity. Qed.

Lemma keeps_cluster_Warn msg args : keeps_cluster (Logger_Warn msg args).
Proof. intros w. apply cluster_untouched_emit. reflexivity. Qed.

Lemma keeps_cluster_ReadFile path : keeps_cluster (os_ReadFile path).
Proof.
  intros w. unfold os_ReadFile.
  destruct (ReadFile_fault _ _); [|destruct (fs w !! path)];
    apply cluster_untouched_emit; reflexivity.
Qed.

Lemma keeps_cluster_Stat path : keeps_cluster (os_Stat path).
Proof.
  intros w. unfold os_Stat.
  destruct (Stat_fault _ _); [|destruct (fs w !! path)];
    apply cluster_untouched_emit; reflexivity.
Qed.

Lemma keeps_cluster_WriteFile path data perm : keeps_cluster (os_WriteFile path data perm).
Proof.
  intros w. unfold os_WriteFile.
  destruct (WriteFile_fault _ _ _ _) as [[e fs']|];
    (split; [reflexivity|]; eexists [_]; split; reflexivity).
Qed.

Lemma keeps_cluster_StoreDriver cfg file : keeps_cluster (config_StoreDriver cfg file).
Proof.
  intros w. unfold config_StoreDriver. cbv zeta.
  destruct (snd (StoreDriver_call (store w) cfg file));
    (split; [reflexivity|]; eexists [_]; split; reflexivity).
Qed.

Create HintDb keeps_cluster.

#[local] Hint Resolve keeps_cluster_ret keeps_cluster_lift keeps_cluster_Info
  keeps_cluster_Warn keeps_cluster_ReadFile keeps_cluster_Stat
  keeps_cluster_WriteFile keeps_cluster_StoreDriver : keeps_cluster.

Ltac keeps_cluster_steps :=
  repeat first
    [ solve [auto with keeps_cluster]
    | apply keeps_cluster_bind; [|intros ?]
    | match goal with
      | |- keeps_cluster (match ?x with _ => _ end) => destruct x
      end ].

Lemma keeps_cluster_local o d : keeps_cluster (replaceDriverTypeInFalcoConfig o d).
Proof.
  unfold replaceDriverTypeInFalcoConfig, ReplaceTextInFile. keeps_cluster_steps.
Qed.

Lemma os_ReadFile_world path w :
  snd (os_ReadFile path w) = emit (EvReadFile path) w.
Proof.
  unfold os_ReadFile.
  destruct (ReadFile_fault _ _); [|destruct (fs w !! path)]; reflexivity.
Qed.

(** The local patcher starts by reading the Falco configuration file. *)
Lemma local_reads_first o d w :
  exists evs,
    trace (snd (replaceDriverTypeInFalcoConfig o d w)) =
      trace w ++ EvReadFile falcoCfgFile :: evs.
Proof.
  assert (Hext : forall {A} (m : M World A) w1,
            keeps_cluster m -> exists evs, trace (snd (m w1)) = trace w1 ++ evs).
  { intros A m w1 Hm. destruct (Hm w1) as (_ & evs & Ht & _). eauto. }
  unfold replaceDriverTypeInFalcoConfig. unfold bind at 1.
  pose proof (os_ReadFile_world falcoCfgFile w) as Hw.
  destruct (os_ReadFile falcoCfgFile w) as [[yamlFile|e|msg] w1];
    cbn [snd] in Hw; subst w1.
  - match goal with |- context [snd (?m (emit ?ev w))] =>
      destruct (Hext _ m (emit ev w)) as [evs Ht] end.
    { keeps_cluster_steps. }
    exists evs. rewrite Ht, trace_emit, <- app_assoc. reflexivity.
  - exists []. reflexivity.
  - exists []. reflexivity.
Qed.

(** X5.  With no namespace given, [commit] never calls the cluster: the
    state of the cluster is as it was and the run holds no listing and no
    patch call. *)
Theorem commit_local_leaves_cluster o d w :
  Namespace o = EmptyString ->
  cluster_untouched w (snd (commit o d w)).
Proof.
  intros Hns. unfold commit.
  destruct (decide (Namespace o = EmptyString)) as [_|Hne]; [|contradiction].
  apply keeps_cluster_local.
Qed.

(** X7.  With the update flag on and no namespace given, when the Falco
    configuration file does not exist the command returns the error of the
    read after its log line: nothing is written and the driver is not
    stored. *)
Theorem missing_file_stops_command o w :
  Update o = true ->
  Namespace o = EmptyString ->
  ReadFile_fault (fs w) falcoCfgFile = None ->
  fs w !! falcoCfgFile = None ->
  RunDriverConfig o w =
    (Err (enoent "open" falcoCfgFile),
     emit (EvReadFile falcoCfgFile) (emit (info_event o) w)).
Proof.
  intros Hup Hns Hfault Hfile. rewrite RunDriverConfig_unfold, Hup.
  unfold commit. destruct (decide (Namespace o = EmptyString)) as [_|Hne]; [|contradiction].
  unfold replaceDriverTypeInFalcoConfig, bind, os_ReadFile.
  cbn [emit fs]. rewrite Hfault, Hfile. reflexivity.
Qed.

(** X10.  With the update flag on and no namespace given, when the Falco
    configuration file is read and does not parse, the command returns the
    error of the parser: the file is not written, no warning is logged and
    the driver is not stored. *)
Theorem malformed_file_stops_command o w f e :
  Update o = true ->
  Namespace o = EmptyString ->
  ReadFile_fault (fs w) falcoCfgFile = None ->
  fs w !! falcoCfgFile = Some f ->
  yaml_Unmarshal (f_content f) = Failed e ->
  RunDriverConfig o w =
    (Err e, emit (EvReadFile falcoCfgFile) (emit (info_event o) w)).
Proof.
  intros Hup Hns Hfault Hfile Hyaml. rewrite RunDriverConfig_unfold, Hup.
  unfold commit. destruct (decide (Namespace o = EmptyString)) as [_|Hne]; [|contradiction].
  unfold replaceDriverTypeInFalcoConfig, bind, os_ReadFile.
  cbn [emit fs]. rewrite Hfault, Hfile. unfold lift. rewrite Hyaml. reflexivity.
Qed.

(** X12.  When the engine kind of the file is already the canonical string
    of the chosen driver type, a successful run of the local patcher leaves
    every file as it was: the content written back is the content read. *)
Theorem same_driver_changes_nothing o d w w' f cfg :
  replaceDriverTypeInFalcoConfig o d w = (Ret tt, w') ->
  fs w !! falcoCfgFile = Some f ->
  yaml_Unmarshal (f_content f) = Ok cfg ->
  checkFalcoRunsWithDrivers (Kind (Engine cfg)) = None ->
  Kind (Engine cfg) = DriverType_String d ->
  fs w' = fs w.
Proof.
  intros Hrun Hfile Hyaml Hc Hsame.
  destruct (local_patch_run _ _ _ _ _ _ Hrun Hfile Hyaml Hc) as (Hfs & _).
  rewrite Hfs, Hsame.
  set (old := configKindKey +:+ DriverType_String d).
  assert (Hid : replace_n 1 old old (f_content f) = f_content f).
  { destruct (split_first old (f_content f)) as [[pre post]|] eqn:Hs.
    - rewrite (replace_first_found _ _ _ _ _ Hs).
      symmetry. apply (split_first_Some _ _ _ _ Hs).
    - apply replace_first_absent, Hs. }
  rewrite Hid. apply insert_id. rewrite Hfile. destruct f; reflexivity.
Qed.

(** *** The command *)

(** X11.  In every run of the command the first call is its log line, and
    [StoreDriver] is called at most once: either it is not called at all and
    the command does not return the nil error, or it is the last call of the
    run, made with the driver of the options. *)
Theorem command_logs_first_stores_last o w :
  let r := RunDriverConfig o w in
  exists evs,
    trace (snd r) = trace w ++ info_event o :: evs /\
    ((forallb (fun ev => negb (is_store ev)) evs = true /\
      returned_nil (fst r) = false)
     \/
     (exists evs',
        evs = evs' ++ [store_event o] /\
        forallb (fun ev => negb (is_store ev)) evs' = true)).
Proof.
  cbv zeta. rewrite RunDriverConfig_unfold.
  set (m := if Update o then commit o (Type_ (Driver o)) else ret tt).
  assert (Hm : keeps_store m).
  { unfold m. destruct (Update o); [apply keeps_store_commit|apply keeps_store_ret]. }
  destruct (Hm (emit (info_event o) w)) as (_ & evs & Htr & Hno).
  unfold bind.
  destruct (m (emit (info_event o) w)) as [[[]|e|msg] w1]; cbn [fst snd] in *.
  - exists (evs ++ [store_event o]). split.
    + rewrite config_StoreDriver_trace, Htr, trace_emit, <- !app_assoc. reflexivity.
    + right. eauto.
  - exists evs. split; [rewrite Htr, trace_emit, <- app_assoc; reflexivity|]. left. auto.
  - exists evs. split; [rewrite Htr, trace_emit, <- app_assoc; reflexivity|]. left. auto.
Qed.

(** X13.  Run with neither [update-falco] nor [namespace] on the command
    line, the command works on the local file: after its log line it reads
    the Falco configuration file, and it makes no call on the cluster. *)
Theorem default_flags_patch_local_file configFile driver given w :
  flag_update_falco given = None ->
  flag_namespace given = None ->
  let r := NewDriverConfigCmd configFile driver given w in
  cluster_untouched w (snd r) /\
  exists evs,
    trace (snd r) =
      trace w ++
      EvLog LInfo "Running falcoctl driver config"
        [("name", Name driver);
         ("version", Version driver);
         ("type", DriverType_String (Type_ driver));
         ("host-root", HostRoot driver);
         ("repos", strings_Join (Repos driver) ",")]
      :: EvReadFile falcoCfgFile :: evs.
Proof.
  intros Hup Hns. cbv zeta. unfold NewDriverConfigCmd. rewrite Hup, Hns.
  cbn [default from_option].
  set (o := {| ConfigFile := configFile; Driver := driver; Update := true;
               Namespace := EmptyString;
               KubeConfig := default EmptyString (flag_kubeconfig given) |}).
  change (EvLog LInfo _ _) with (info_event o).
  rewrite RunDriverConfig_unfold. cbn [Update o]. unfold commit.
  destruct (decide (Namespace o = EmptyString)) as [_|Hne]; [|contradiction].
  split.
  - apply (cluster_untouched_trans _ (emit (info_event o) w));
      [apply cluster_untouched_emit; reflexivity|].
    apply (keeps_cluster_bind (replaceDriverTypeInFalcoConfig o (Type_ (Driver o)))
             (fun _ => config_StoreDriver (ToDriverConfig (Driver o)) (ConfigFile o)));
      [apply keeps_cluster_local|intros _; apply keeps_cluster_StoreDriver].
  - destruct (local_reads_first o (Type_ (Driver o)) (emit (info_event o) w))
      as [evs Ht].
    unfold bind.
    destruct (replaceDriverTypeInFalcoConfig o (Type_ (Driver o)) (emit (info_event o) w))
      as [[[]|e|msg] w1]; cbn [snd] in *.
    + exists (evs ++ [store_event o]).
      rewrite config_StoreDriver_trace, Ht, trace_emit, <- !app_assoc. reflexivity.
    + exists evs. rewrite Ht, trace_emit, <- !app_assoc. reflexivity.
    + exists evs. rewrite Ht, trace_emit, <- !app_assoc. reflexivity.
Qed.

End Coverage.

(** ** The theorems at work on the test double *)

Section Witnesses.

Import Sample.

(** An empty listing: the patcher panics after the listing call. *)
Lemma empty_listing_panics_witness :
  replaceDriverTypeInK8SConfigMap k8s_options Ebpf (world ∅ []) =
    (Panic "runtime error: index out of range",
     emit (EvList "falco" labelSelector) (world ∅ [])).
Proof.
  apply (empty_listing_panics (E := env) k8s_options Ebpf (world ∅ []) tt tt); reflexivity.
Defined.

(** [mixed_maps]: two patches, one warning, then the panic. *)
Lemma one_ineligible_then_panic_witness :
  let r := replaceDriverTypeInK8SConfigMap k8s_options Ebpf (world ∅ mixed_maps) in
  fst r = Panic "runtime error: index out of range" /\
  exists evs,
    trace (snd r) = [] ++ EvList "falco" labelSelector :: evs /\
    length evs = 3 /\
    evs !! 1 = Some (skip_event (configmap "falco-b" "gvisor")) /\
    (forall j configMap, j <> 1 -> mixed_maps !! j = Some configMap ->
       evs !! j = Some (patch_event Ebpf j configMap)).
Proof.
  apply (one_ineligible_then_panic (E := env) k8s_options Ebpf (world ∅ mixed_maps) tt tt
           mixed_maps 1 (configmap "falco-b" "gvisor")).
  - reflexivity.
  - reflexivity.
  - reflexivity.
  - eexists. reflexivity.
  - intros [|[|[|j]]] configMap Hj Hl; try congruence;
      cbn in Hl; try discriminate Hl; injection Hl as <-; eexists; reflexivity.
  - intros c configMap Hin.
    repeat (apply elem_of_cons in Hin as [->|Hin]; [reflexivity|]).
    apply elem_of_nil in Hin. destruct Hin.
Defined.

(** [guarded_maps]: the patch of the second item is refused; the first item
    has been patched and the third is never tried. *)
Lemma patch_failure_aborts_witness :
  let r := replaceDriverTypeInK8SConfigMap k8s_options Ebpf (world ∅ guarded_maps) in
  fst r = Err "patch rejected: readonly-b" /\
  exists evs,
    trace (snd r) =
      [] ++ EvList "falco" labelSelector :: evs
         ++ [patch_event Ebpf 1 (configmap "readonly-b" "kmod")] /\
    Forall (fun ev => forall j, patch_index ev = Some j -> j < 1) evs.
Proof.
  eapply (patch_failure_aborts (E := env) k8s_options Ebpf (world ∅ guarded_maps) tt tt
            guarded_maps 1 (configmap "readonly-b" "kmod")); reflexivity.
Defined.


(** [plugin_maps]: two warnings, no patch, then the panic. *)
Lemma cluster_all_ineligible_panics_witness :
  let w := world ∅ plugin_maps in
  let r := replaceDriverTypeInK8SConfigMap k8s_options Ebpf w in
  fst r = Panic "runtime error: index out of range" /\
  cluster (snd r) = cluster w /\
  fs (snd r) = fs w /\
  trace (snd r) = [] ++ EvList "falco" labelSelector :: map skip_event plugin_maps.
Proof.
  apply (cluster_all_ineligible_panics (E := env) k8s_options Ebpf (world ∅ plugin_maps) tt tt
           plugin_maps).
  - reflexivity.
  - reflexivity.
  - repeat apply Forall_cons_2; try apply Forall_nil_2; eexists; reflexivity.
Defined.

(** The payload for [ebpf], on [mixed_maps]. *)
Lemma patch_payload_witness :
  (forall k configMap,
     mixed_maps !! k = Some configMap ->
     (exists dt, parse (currEngineKind configMap) = Ok dt) ->
     (forall c configMap',
        configMap' ∈ take k mixed_maps ->
        snd (fake_patch c (cm_Name configMap') (patch_document "ebpf")) = None) ->
     exists evs,
       trace (snd (replaceDriverTypeInK8SConfigMap k8s_options Ebpf (world ∅ mixed_maps))) =
         [] ++ EvList "falco" labelSelector
           :: events_of (patch_document "ebpf") 0 (take k mixed_maps)
           ++ EvPatch k (cm_Namespace configMap) (cm_Name configMap) JSONPatchType
                (patch_document "ebpf")
              :: evs) /\
  exists evs,
    trace (snd (replaceDriverTypeInK8SConfigMap k8s_options Ebpf (world ∅ mixed_maps))) =
      [] ++ EvList "falco" labelSelector :: evs /\
    Forall (fun ev => forall j, patch_index ev = Some j ->
      exists configMap,
        mixed_maps !! j = Some configMap /\
        checkFalcoRunsWithDrivers (currEngineKind configMap) = None /\
        ev = EvPatch j (cm_Namespace configMap) (cm_Name configMap) JSONPatchType
               (patch_document "ebpf")) evs.
Proof.
  apply (patch_payload (E := env) k8s_options Ebpf (world ∅ mixed_maps) tt tt mixed_maps).
  - intros s _. reflexivity.
  - reflexivity.
  - reflexivity.
  - reflexivity.
Defined.

(** The third item of [mixed_maps], after the patch of the first and the
    warning for the second: the document submitted for it. *)
Example patch_document_for_third_item :
  trace (snd (replaceDriverTypeInK8SConfigMap k8s_options Ebpf (world ∅ mixed_maps)))
    !! 3 =
  Some (EvPatch 2 "falco" "falco-c" JSONPatchType (patch_document "ebpf")).
Proof. reflexivity. Qed.

(** [plugin_maps] in the namespace [falco]: every target is skipped, the
    command panics and the store stays empty. *)
Lemma all_skipped_in_cluster_stores_nothing_witness :
  let w := world ∅ plugin_maps in
  let r := RunDriverConfig k8s_options w in
  fst r = Panic "runtime error: index out of range" /\
  store (snd r) = store w /\
  trace (snd r) =
    [] ++ info_event k8s_options :: EvList "falco" labelSelector
       :: map skip_event plugin_maps.
Proof.
  apply (all_skipped_in_cluster_stores_nothing (E := env) k8s_options
           (world ∅ plugin_maps) tt tt plugin_maps).
  - reflexivity.
  - intros H. discriminate H.
  - reflexivity.
  - reflexivity.
  - repeat apply Forall_cons_2; try apply Forall_nil_2; eexists; reflexivity.
Defined.

(** A ConfigMap without the key, first of a listing. *)
Lemma missing_key_is_skipped_witness :
  currEngineKind (bare_configmap "falco-rules") = EmptyString /\
  loop_body tt (plBytes_of Ebpf) 0 (bare_configmap "falco-rules") (world ∅ []) =
    (Ret tt,
     emit (EvLog LWarn "Avoid updating Falco configMap"
             [("configMap", "falco-rules");
              ("reason", "engine.kind is not driver driven: ")]) (world ∅ [])) /\
  (forall (m : ConfigMapList) remaining,
     Items m !! 0 = Some (bare_configmap "falco-rules") ->
     for_configMaps tt m (plBytes_of Ebpf) (S remaining) 0 (world ∅ []) =
       for_configMaps tt m (plBytes_of Ebpf) remaining 1
         (emit (EvLog LWarn "Avoid updating Falco configMap"
                  [("configMap", "falco-rules");
                   ("reason", "engine.kind is not driver driven: ")]) (world ∅ []))).
Proof.
  apply (missing_key_is_skipped (E := env) tt (plBytes_of (E := env) Ebpf) 0
           (bare_configmap "falco-rules") (world ∅ [])
           "wrong driver type specified: "); reflexivity.
Defined.

(** A local file with engine kind [gvisor]: the only target is skipped,
    [commit] returns the nil error, and the driver is stored. *)
Lemma store_follows_commit_witness :
  let w := world (disk "gvisor") [] in
  let w2 := snd (commit local_options Ebpf (emit (info_event local_options) w)) in
  RunDriverConfig local_options w =
    config_StoreDriver (ToDriverConfig (Driver local_options))
      (ConfigFile local_options) w2 /\
  trace (snd (RunDriverConfig local_options w)) = trace w2 ++ [store_event local_options] /\
  store_untouched w w2.
Proof.
  apply (proj1 (store_follows_commit (E := env) local_options (world (disk "gvisor") []) eq_refl)).
  reflexivity.
Defined.

(** The same command with the update flag off. *)
Lemma no_update_only_stores_witness :
  let o := options Ebpf false EmptyString in
  let w := world (disk "kmod") [] in
  let r := RunDriverConfig o w in
  trace (snd r) = [] ++ [info_event o; store_event o] /\
  forallb (fun ev => negb (touches_config ev)) [info_event o; store_event o] = true /\
  fs (snd r) = fs w /\
  cluster (snd r) = cluster w /\
  store (snd r) = fst (StoreDriver_call (store w) (ToDriverConfig (Driver o)) (ConfigFile o)) /\
  fst r =
    match snd (StoreDriver_call (store w) (ToDriverConfig (Driver o)) (ConfigFile o)) with
    | Some e => Err e
    | None => Ret tt
    end.
Proof.
  apply (no_update_only_stores (E := env) (options Ebpf false EmptyString) (world (disk "kmod") [])).
  reflexivity.
Defined.

(** The scenario of the spec: [engine:] / [  kind: kmod] becomes
    [engine:] / [  kind: ebpf], with the mode of the file kept. *)
Example scenario_kmod_to_ebpf :
  let r := replaceDriverTypeInFalcoConfig local_options Ebpf (world (disk "kmod") []) in
  fst r = Ret tt /\
  fs (snd r) = {[ falcoCfgFile := mkFile 420 (falco_yaml "ebpf") ]}.
Proof. split; [reflexivity|]. apply map_eq. intros path. vm_compute. reflexivity. Qed.

(** The scenario of the spec for a non-driver engine, on the local file:
    success, the file as it was, and the reason logged. *)
Example scenario_gvisor_local :
  replaceDriverTypeInFalcoConfig local_options Ebpf (world (disk "gvisor") []) =
    (Ret tt,
     mkWorld (disk "gvisor") (cluster (world (disk "gvisor") [])) []
       [EvReadFile falcoCfgFile;
        EvLog LWarn "Avoid updating Falco configuration"
          [("config", falcoCfgFile);
           ("reason", "engine.kind is not driver driven: gvisor")]]).
Proof. reflexivity. Qed.

End Witnesses.

(** ** The further properties at work on the test double *)

Section CoverageWitnesses.

Import Sample.

(** [guarded_maps]: the run ends on the refused patch of the second item. *)
Lemma k8s_ends_in_panic_or_patch_error_witness :
  let r := replaceDriverTypeInK8SConfigMap k8s_options Ebpf (world ∅ guarded_maps) in
  (fst r = Panic "runtime error: index out of range" /\
   trace (snd r) =
     [] ++ EvList "falco" labelSelector :: events_of (plBytes_of Ebpf) 0 guarded_maps)
  \/
  (exists k configMap e c,
     guarded_maps !! k = Some configMap /\
     checkFalcoRunsWithDrivers (currEngineKind configMap) = None /\
     snd (fake_patch c (cm_Name configMap) (plBytes_of Ebpf)) = Some e /\
     fst r = Err e /\
     trace (snd r) =
       [] ++ EvList "falco" labelSelector
         :: events_of (plBytes_of Ebpf) 0 (take k guarded_maps)
         ++ [patch_event Ebpf k configMap]).
Proof.
  apply (k8s_ends_in_panic_or_patch_error (E := env) k8s_options Ebpf
           (world ∅ guarded_maps) tt tt guarded_maps); reflexivity.
Defined.

(** [mixed_maps] in the namespace [falco]: no nil error, nothing stored. *)
Lemma update_in_cluster_never_stores_witness :
  returned_nil (fst (RunDriverConfig k8s_options (world ∅ mixed_maps))) = false /\
  store_untouched (world ∅ mixed_maps)
    (snd (RunDriverConfig k8s_options (world ∅ mixed_maps))).
Proof.
  apply (update_in_cluster_never_stores (E := env) k8s_options (world ∅ mixed_maps)).
  - reflexivity.
  - intros H. discriminate H.
Defined.

(** A cluster that refuses the listing: the error comes back after the one
    call. *)
Lemma listing_failure_stops_patcher_witness :
  replaceDriverTypeInK8SConfigMap (E := unlistable)
    (variant_options (Ok tt) (fun _ => Failed bad_selector)) Ebpf
    (variant_world (Ok tt) (fun _ => Failed bad_selector) mixed_maps) =
    (Err bad_selector,
     emit (EvList "falco" labelSelector)
       (variant_world (Ok tt) (fun _ => Failed bad_selector) mixed_maps)).
Proof.
  apply (listing_failure_stops_patcher (E := unlistable)
           (variant_options (Ok tt) (fun _ => Failed bad_selector)) Ebpf
           (variant_world (Ok tt) (fun _ => Failed bad_selector) mixed_maps) tt);
    reflexivity.
Defined.


Lemma commit_local_leaves_cluster_witness :
  cluster_untouched (world (disk "kmod") mixed_maps)
    (snd (commit local_options Ebpf (world (disk "kmod") mixed_maps))).
Proof.
  apply (commit_local_leaves_cluster (E := env) local_options Ebpf
           (world (disk "kmod") mixed_maps)).
  reflexivity.
Defined.

(** A file with engine kind [gvisor]: read, warned about, left alone. *)
Lemma local_skip_witness :
  replaceDriverTypeInFalcoConfig local_options Ebpf (world (disk "gvisor") []) =
    (Ret tt,
     emit (EvLog LWarn "Avoid updating Falco configuration"
             [("config", falcoCfgFile);
              ("reason", "engine.kind is not driver driven: gvisor")])
       (emit (EvReadFile falcoCfgFile) (world (disk "gvisor") []))).
Proof.
  apply (local_skip (E := env) local_options Ebpf (world (disk "gvisor") [])
           (mkFile 420 (falco_yaml "gvisor")) {| Engine := {| Kind := "gvisor" |} |});
    reflexivity.
Defined.

(** No file on disk. *)
Lemma missing_file_stops_command_witness :
  RunDriverConfig local_options (world ∅ []) =
    (Err "open /etc/falco/falco.yaml: no such file or directory",
     emit (EvReadFile falcoCfgFile) (emit (info_event local_options) (world ∅ []))).
Proof.
  apply (missing_file_stops_command (E := env) local_options (world ∅ []));
    reflexivity.
Defined.

(** A file the reader rejects. *)
Lemma malformed_file_stops_command_witness :
  RunDriverConfig local_options (world broken_disk []) =
    (Err "yaml: unmarshal errors",
     emit (EvReadFile falcoCfgFile)
       (emit (info_event local_options) (world broken_disk []))).
Proof.
  apply (malformed_file_stops_command (E := env) local_options (world broken_disk [])
           (mkFile 420 "engine: ["));
    reflexivity.
Defined.

(** A file already set to [ebpf], patched for [ebpf]. *)
Lemma same_driver_changes_nothing_witness :
  fs (snd (replaceDriverTypeInFalcoConfig local_options Ebpf (world (disk "ebpf") []))) =
    disk "ebpf".
Proof.
  apply (same_driver_changes_nothing (E := env) local_options Ebpf
           (world (disk "ebpf") [])
           (snd (replaceDriverTypeInFalcoConfig local_options Ebpf (world (disk "ebpf") [])))
           (mkFile 420 (falco_yaml "ebpf")) {| Engine := {| Kind := "ebpf" |} |});
    reflexivity.
Defined.

(** No flag on the command line, a driver file on disk and ConfigMaps in
    the cluster: the file is read and the cluster is not called. *)
Lemma default_flags_patch_local_file_witness :
  let w := world (disk "kmod") mixed_maps in
  let r := NewDriverConfigCmd "/etc/falcoctl/falcoctl.yaml" ebpf_driver no_flags w in
  cluster_untouched w (snd r) /\
  exists evs,
    trace (snd r) =
      [] ++
      EvLog LInfo "Running falcoctl driver config"
        [("name", "falco"); ("version", "7.0.0"); ("type", "ebpf");
         ("host-root", "/host"); ("repos", "https://download.falco.org/driver")]
      :: EvReadFile falcoCfgFile :: evs.
Proof.
  apply (default_flags_patch_local_file (E := env) "/etc/falcoctl/falcoctl.yaml"
           ebpf_driver no_flags (world (disk "kmod") mixed_maps));
    reflexivity.
Defined.

End CoverageWitnesses.
